(** * pyavd.cli.build: the two-stage fabric build pipeline

    A shallow embedding of [python-avd/pyavd/cli/build.py].

    The coordinator ([build]) and the two per-host task wrappers
    ([build_structured_config], [build_designed_config]) are written in a
    small state-and-exception monad.  The functions that the file imports
    from the package and from Ansible form the class [Collaborators]: they
    are taken as total, deterministic functions of their arguments.

    The process pool is modelled by what the coordinator can observe of it:
    every submitted task runs to completion in a worker of its own, and its
    future holds what the task printed, which external functions it called,
    and its result or exception; [as_completed] hands the futures back in an
    order chosen by the pool (any order at all, see [as_completed_any_order]),
    which may depend on the worker count.

    A run leaves a trace of what the coordinator did (the call of the fact
    aggregator, submissions, results retrieved, files written) and a file
    system; the claims are stated on these. *)

From Stdlib Require Import ZArith.
From stdpp Require Import base gmap list strings.


Open Scope string_scope.
Open Scope list_scope.

(** ** Tactics *)

(** A closed decidable fact, by evaluation. *)
Ltac by_evaluation := apply (bool_decide_unpack _); vm_compute; exact I.

(** [∀ x, x ∈ [] → _] *)
Ltac no_elements :=
  let x := fresh in let H := fresh in intros x H; by apply elem_of_nil in H.

(** ** Exceptions and the state-and-exception monad *)

Inductive exn : Type :=
  | RuntimeError (msg : string)
  | FileNotFoundError (p : list string)
  | SystemExit (status : Z) (msg : string).

(** A computation over a state [S] that returns an [A] or raises. *)
Definition M (S A : Type) : Type := S → (exn + A) * S.

Definition ret {S A} (a : A) : M S A := λ s, (inr a, s).

Definition bind {S A B} (m : M S A) (k : A → M S B) : M S B :=
  λ s, match m s with
       | (inl e, s') => (inl e, s')
       | (inr a, s') => k a s'
       end.

Definition raise {S A} (e : exn) : M S A := λ s, (inl e, s).

Declare Scope pymonad_scope.
Delimit Scope pymonad_scope with py.
Notation "'do' x <- m ; k" := (bind m (λ x, k))
  (at level 10, x pattern, m at level 100, k at level 200) : pymonad_scope.
Notation "'do' ' p <- m ; k" := (bind m (λ x, match x with p => k end))
  (at level 10, p pattern, m at level 100, k at level 200) : pymonad_scope.
Notation "m ;; k" := (bind m (λ _, k))
  (at level 100, k at level 200, right associativity) : pymonad_scope.
Open Scope pymonad_scope.

(** [for x in l: body x] *)
Fixpoint for_each {S A} (l : list A) (body : A → M S unit) : M S unit :=
  match l with
  | [] => ret tt
  | x :: l' => body x ;; for_each l' body
  end.

(** [acc = init; for x in l: acc = body acc x] *)
Fixpoint for_fold {S A B} (l : list A) (body : B → A → M S B) (acc : B)
    : M S B :=
  match l with
  | [] => ret acc
  | x :: l' => do acc' <- body acc x; for_fold l' body acc'
  end.

(** [[f x for x in l]], where [f] has effects *)
Fixpoint for_list {S A B} (l : list A) (f : A → M S B) : M S (list B) :=
  match l with
  | [] => ret []
  | x :: l' => do y <- f x; do ys <- for_list l' f; ret (y :: ys)
  end.

(** ** Python dictionaries: insertion-ordered, keyed by strings *)

Definition dict (V : Type) : Type := list (string * V).

(** [d[k] = v]: an existing key keeps its place, a new key goes last. *)
Fixpoint dict_set {V} (k : string) (v : V) (d : dict V) : dict V :=
  match d with
  | [] => [(k, v)]
  | (k', v') :: d' =>
      if String.eqb k' k then (k, v) :: d' else (k', v') :: dict_set k v d'
  end.

Definition dict_items {V} (d : dict V) : list (string * V) := d.
Definition dict_keys {V} (d : dict V) : list string := d.*1.

(** ** Paths and the output file system *)

(** A [pathlib.Path], by its components: [Path("intended", "configs")] is
    [["intended"; "configs"]]. *)
Definition path : Type := list string.

(** [dir / name], for a one-component [name]. *)
Definition path_div (dir : path) (name : string) : path := dir ++ [name].

Definition path_parent (p : path) : path := removelast p.

(** The directories that exist and the contents of the files that do. *)
Record filesystem : Type := Filesystem {
  dirs : gset path;
  files : gmap path string
}.

(** [with open(p, "w") as f: f.write(content)].  Opening for writing creates
    or truncates the file [p]; it needs the directory of [p] to exist and
    never creates it. *)
Definition open_write (p : path) (content : string) (fs : filesystem)
    : exn + filesystem :=
  if decide (path_parent p ∈ dirs fs)
  then inr (Filesystem (dirs fs) (<[p := content]> (files fs)))
  else inl (FileNotFoundError p).

(** ** The pool's completion order *)

(** [as_completed] yields every future once, in the order the pool finishes
    them.  The order is driven by a list of choices: each choice picks one of
    the futures still pending. *)
Fixpoint pick_order {A} (n : nat) (choices : list nat) (pending : list A)
    : list A :=
  match n with
  | O => []
  | S n' =>
      let i := (hd 0 choices `mod` length pending)%nat in
      match pending !! i with
      | None => []
      | Some x => x :: pick_order n' (tl choices) (delete i pending)
      end
  end.

Definition as_completed_by {A} (choices : list nat) (futures : list A)
    : list A :=
  pick_order (length futures) choices futures.

(** The executor: its worker count and the completion order it produces in
    each of the two phases. *)
Record pool : Type := Pool {
  pool_max_workers : option Z;
  pool_completion : nat → list nat
}.

(** The completion order is the pool's own business; it may depend on the
    number of workers. *)
Definition scheduler : Type := option Z → nat → list nat.

(** [ProcessPoolExecutor(max_workers=max_workers)]: [max_workers] is an
    [int], or [None] to let the executor choose.  The executor's own check of
    its argument (it refuses a count that is not positive) is left out: the
    pool is taken as created. *)
Definition ProcessPoolExecutor (sched : scheduler) (max_workers : option Z)
    : pool :=
  Pool max_workers (sched max_workers).

Definition as_completed {A} (p : pool) (phase : nat) (futures : list A)
    : list A :=
  as_completed_by (pool_completion p phase) futures.

(** ** What the two validators return *)

Record ValidationResult (ErrorRecord : Type) : Type := {
  failed : bool;
  validation_errors : list ErrorRecord
}.
Arguments failed {ErrorRecord} _.
Arguments validation_errors {ErrorRecord} _.

(** ** Loops that stop at the first failure *)

(** The items handled before the failure, and the item that failed. *)
Fixpoint ok_prefix {A} (ok : A → bool) (l : list A) : list A :=
  match l with
  | [] => []
  | x :: l' => if ok x then x :: ok_prefix ok l' else []
  end.

Fixpoint first_bad {A} (ok : A → bool) (l : list A) : option A :=
  match l with
  | [] => None
  | x :: l' => if ok x then first_bad ok l' else Some x
  end.

(** The name of a host's output file. *)
Definition cfg_path (intended_configs_path : path) (hostname : string) : path :=
  path_div intended_configs_path (hostname +:+ ".cfg").

(** ** The collaborators

    What [build.py] imports and calls: the inventory and variable managers of
    Ansible, the five functions of the package, and the two conversions that
    the argument parser applies. *)

Class Collaborators : Type := {
  HostVars : Type;
  Facts : Type;
  StructuredConfig : Type;
  ErrorRecord : Type;
  (** [inventory.hosts] of the inventory read from a source path, in order *)
  inventory_hosts : path → list string;
  (** [variable_manager.get_vars(host=inventory.get_host(hostname))] *)
  get_vars : path → string → HostVars;
  validate_inputs : HostVars → ValidationResult ErrorRecord;
  get_avd_facts : dict HostVars → Facts;
  get_device_structured_config : string → HostVars → Facts → StructuredConfig;
  validate_structured_config : StructuredConfig → ValidationResult ErrorRecord;
  get_device_config : StructuredConfig → string;
  (** [type=Path] and [type=int] applied to an argument string; [int] fails
      on a string that is not an integer literal *)
  Path_of_string : string → path;
  int_of_string : string → option Z
}.

(** ** A small fabric to run the pipeline on

    Three inventories: a healthy fabric with a controller entry, one with a
    host whose input variables are rejected, and one with a host whose
    structured config is rejected.  Host variables and structured configs
    are plain strings here. *)

Module Fabric.

Definition inventory_hosts (inventory_path : path) : list string :=
  if decide (inventory_path = ["fabric"]) then ["leaf1"; "cvp"; "leaf2"]
  else if decide (inventory_path = ["bad-inputs"]) then ["leaf1"; "spine1"]
  else if decide (inventory_path = ["bad-structured"]) then ["leaf1"; "spine2"]
  else if decide (inventory_path = ["controller-only"]) then ["cvp"]
  else [].

Definition get_vars (inventory_path : path) (hostname : string) : string :=
  "type of " +:+ hostname.

Definition validate_inputs (inputs : string) : ValidationResult string :=
  if String.eqb inputs "type of spine1"
  then {| failed := true;
          validation_errors := ["unknown key"; "missing id"] |}
  else {| failed := false; validation_errors := [] |}.

Definition get_avd_facts (all_hostvars : dict string) : nat :=
  length all_hostvars.

Definition get_device_structured_config
    (hostname inputs : string) (avd_facts : nat) : string :=
  "hostname " +:+ hostname.

Definition validate_structured_config (structured_config : string)
    : ValidationResult string :=
  if String.eqb structured_config "hostname spine2"
  then {| failed := true; validation_errors := ["bad router id"] |}
  else {| failed := false; validation_errors := [] |}.

Definition get_device_config (structured_config : string) : string :=
  structured_config +:+ " [rendered]".

(** Three pools: tasks complete in submission order; the second task
    completes first; and a pool where that depends on the worker count: with
    one worker the tasks complete in submission order, with more the second
    Stage 2 task overtakes the first. *)
Definition in_order : scheduler := λ _ _, [].
Definition second_first : scheduler := λ _ _, [1%nat].
Definition overtaking : scheduler :=
  λ max_workers phase,
    match max_workers, phase with
    | Some 1%Z, _ => []
    | _, 2%nat => [1%nat]
    | _, _ => []
    end.

(** An output location that exists and is empty, and one that is absent. *)
Definition out_present : filesystem := Filesystem {[ ["intended"; "configs"] ]} ∅.
Definition out_absent : filesystem := Filesystem ∅ ∅.

Definition Path_of_string (v : string) : path := [v].
Definition int_of_string (v : string) : option Z :=
  if String.eqb v "4" then Some 4%Z else None.

Definition collaborators : Collaborators :=
  Build_Collaborators string nat string string
    inventory_hosts get_vars validate_inputs get_avd_facts
    get_device_structured_config validate_structured_config get_device_config
    Path_of_string int_of_string.

End Fabric.

(** ** The pipeline *)

Section Pipeline.

Context {collaborators : Collaborators}.

(** What a task does inside its worker: lines printed to standard output
    and calls of the external functions. *)
Inductive effect : Type :=
  | Print (r : ErrorRecord)
  | CallValidateInputs (inputs : HostVars)
  | CallGetDeviceStructuredConfig
      (hostname : string) (inputs : HostVars) (avd_facts : Facts)
  | CallValidateStructuredConfig (structured_config : StructuredConfig)
  | CallGetDeviceConfig (structured_config : StructuredConfig).

Definition task (A : Type) : Type := M (list effect) A.

Definition tell (e : effect) : task unit := λ log, (inr tt, log ++ [e]).

Definition print (r : ErrorRecord) : task unit := tell (Print r).

Definition build_structured_config
    (hostname : string) (inputs : HostVars) (avd_facts : Facts)
    : task (string * StructuredConfig) :=
  tell (CallValidateInputs inputs) ;;
  let results := validate_inputs inputs in
  if failed results then
    for_each (validation_errors results) print ;;
    raise (RuntimeError (hostname +:+ " validate_inputs failed"))
  else
    tell (CallGetDeviceStructuredConfig hostname inputs avd_facts) ;;
    let structured_config :=
      get_device_structured_config hostname inputs avd_facts in
    ret (hostname, structured_config).

Definition build_designed_config
    (hostname : string) (structured_config : StructuredConfig)
    : task (string * string) :=
  tell (CallValidateStructuredConfig structured_config) ;;
  let results := validate_structured_config structured_config in
  if failed results then
    for_each (validation_errors results) print ;;
    raise (RuntimeError (hostname +:+ " validate_structured_config failed"))
  else
    tell (CallGetDeviceConfig structured_config) ;;
    ret (hostname, get_device_config structured_config).

(** A future: what the task did in its worker and how it ended. *)
Record future (A : Type) : Type := Future {
  fut_effects : list effect;
  fut_result : exn + A
}.
Arguments Future {A} _ _.
Arguments fut_effects {A} _.
Arguments fut_result {A} _.

Definition run_task {A} (t : task A) : future A :=
  let '(r, log) := t [] in Future log r.

(** What the coordinator does, in order. *)
Inductive event : Type :=
  | EvGetAvdFacts (all_hostvars : dict HostVars)
  | EvSubmit1 (hostname : string) (hostvars : HostVars) (avd_facts : Facts)
  | EvResult1 (hostname : string) (structured_config : StructuredConfig)
  | EvSubmit2 (hostname : string) (structured_config : StructuredConfig)
  | EvResult2 (hostname : string) (designed_config : string)
  | EvWrite (p : path) (content : string).

Record world : Type := World {
  trace : list event;
  fs : filesystem
}.

Definition emit (ev : event) : M world unit :=
  λ w, (inr tt, World (trace w ++ [ev]) (fs w)).

(** [pool.submit(fn, *args)] *)
Definition submit {A} (p : pool) (ev : event) (t : task A)
    : M world (future A) :=
  emit ev ;; ret (run_task t).

(** [future.result()]: the task's value, or its exception raised again. *)
Definition result {A} (ev : A → event) (f : future A) : M world A :=
  match fut_result f with
  | inl e => raise e
  | inr a => emit (ev a) ;; ret a
  end.

Definition write_file (p : path) (content : string) : M world unit :=
  λ w, match open_write p content (fs w) with
       | inl e => (inl e, w)
       | inr fs' => (inr tt, World (trace w ++ [EvWrite p content]) fs')
       end.

(** The body of the loop of lines 49-52, and the loop. *)
Definition hostvars_step (inventory_path : path)
    (all_hostvars : dict HostVars) (hostname : string) : dict HostVars :=
  if String.eqb hostname "cvp" then all_hostvars
  else dict_set hostname (get_vars inventory_path hostname) all_hostvars.

Definition collect_hostvars (inventory_path : path) : dict HostVars :=
  foldl (hostvars_step inventory_path) [] (inventory_hosts inventory_path).

(** Lines 59-66: submit one Stage 1 task per host, then gather the
    structured configs as the tasks complete. *)
Definition stage1 (pool : pool) (all_hostvars : dict HostVars)
    (avd_facts : Facts) : M world (dict StructuredConfig) :=
  do futures <-
    for_list (dict_items all_hostvars)
      (λ '(hostname, hostvars),
         submit pool (EvSubmit1 hostname hostvars avd_facts)
           (build_structured_config hostname hostvars avd_facts));
  for_fold (as_completed pool 1 futures)
    (λ structured_configs future,
       do '(hostname, structured_config) <-
         result (λ '(h, sc), EvResult1 h sc) future;
       ret (dict_set hostname structured_config structured_configs))
    [].

(** Lines 69-79: submit one Stage 2 task per structured config, then write
    each designed config as its task completes. *)
Definition stage2 (pool : pool) (intended_configs_path : path)
    (structured_configs : dict StructuredConfig) : M world unit :=
  do futures <-
    for_list (dict_items structured_configs)
      (λ '(hostname, structured_config),
         submit pool (EvSubmit2 hostname structured_config)
           (build_designed_config hostname structured_config));
  for_each (as_completed pool 2 futures)
    (λ future,
       do '(hostname, designed_config) <-
         result (λ '(h, c), EvResult2 h c) future;
       write_file (path_div intended_configs_path (hostname +:+ ".cfg"))
         designed_config).

(** [avd_facts = get_avd_facts(all_hostvars)], in the coordinator. *)
Definition call_get_avd_facts (all_hostvars : dict HostVars)
    : M world Facts :=
  emit (EvGetAvdFacts all_hostvars) ;; ret (get_avd_facts all_hostvars).

Definition build (sched : scheduler)
    (inventory_path intended_configs_path : path) (max_workers : option Z)
    : M world unit :=
  let all_hostvars := collect_hostvars inventory_path in
  let pool := ProcessPoolExecutor sched max_workers in
  do avd_facts <- call_get_avd_facts all_hostvars;
  do structured_configs <- stage1 pool all_hostvars avd_facts;
  stage2 pool intended_configs_path structured_configs.

(** *** Reading a trace *)

(** What the task submitted by an event does in its worker.  The pool never
    cancels a task, so every submitted task does run. *)
Definition worker_effects (ev : event) : list effect :=
  match ev with
  | EvSubmit1 h v f => fut_effects (run_task (build_structured_config h v f))
  | EvSubmit2 h sc => fut_effects (run_task (build_designed_config h sc))
  | _ => []
  end.

Definition is_render_call (e : effect) : bool :=
  match e with CallGetDeviceConfig _ => true | _ => false end.

Definition submitted_for (hostname : string) (ev : event) : bool :=
  match ev with
  | EvSubmit1 h _ _ | EvSubmit2 h _ => String.eqb h hostname
  | _ => false
  end.

(** Does some task submitted for [hostname] call [get_device_config]? *)
Definition render_invoked_for (hostname : string) (t : list event) : bool :=
  existsb
    (λ ev, submitted_for hostname ev && existsb is_render_call (worker_effects ev))
    t.

Definition is_get_avd_facts (ev : event) : bool :=
  match ev with EvGetAvdFacts _ => true | _ => false end.

Definition is_submit2 (ev : event) : bool :=
  match ev with EvSubmit2 _ _ => true | _ => false end.

Definition is_write (ev : event) : bool :=
  match ev with EvWrite _ _ => true | _ => false end.

(** The files written, in the order they were written. *)
Definition written (t : list event) : list (path * string) :=
  omap (λ ev, match ev with EvWrite p c => Some (p, c) | _ => None end) t.

(** The Stage 2 tasks submitted: which host, on which structured config. *)
Definition submitted2 (t : list event) : list (string * StructuredConfig) :=
  omap (λ ev, match ev with EvSubmit2 h sc => Some (h, sc) | _ => None end) t.

(** The Stage 1 tasks submitted: which host, with which variables and
    facts. *)
Definition submitted1 (t : list event) : list (string * HostVars * Facts) :=
  omap (λ ev, match ev with EvSubmit1 h v f => Some (h, v, f) | _ => None end)
    t.

(** The results retrieved in each stage, in the order they were retrieved. *)
Definition results1 (t : list event) : list (string * StructuredConfig) :=
  omap (λ ev, match ev with EvResult1 h sc => Some (h, sc) | _ => None end) t.

Definition results2 (t : list event) : list (string * string) :=
  omap (λ ev, match ev with EvResult2 h c => Some (h, c) | _ => None end) t.

(** The lines that a task prints, in order. *)
Definition printed (effects : list effect) : list ErrorRecord :=
  omap (λ e, match e with Print r => Some r | _ => None end) effects.

(** A host passes input validation; a structured config passes its own. *)
Definition inputs_ok (x : string * HostVars) : bool :=
  negb (failed (validate_inputs x.2)).

Definition structured_ok (x : string * StructuredConfig) : bool :=
  negb (failed (validate_structured_config x.2)).

(** What a successful task returns, per stage. *)
Definition stage1_result (avd_facts : Facts) (x : string * HostVars)
    : string * StructuredConfig :=
  (x.1, get_device_structured_config x.1 x.2 avd_facts).

Definition stage2_result (x : string * StructuredConfig) : string * string :=
  (x.1, get_device_config x.2).

(** The events of a host, from the pair that a loop handles. *)
Definition ev_submit1 (avd_facts : Facts) (x : string * HostVars) : event :=
  EvSubmit1 x.1 x.2 avd_facts.
Definition ev_result1 (x : string * StructuredConfig) : event :=
  EvResult1 x.1 x.2.
Definition ev_submit2 (x : string * StructuredConfig) : event :=
  EvSubmit2 x.1 x.2.
Definition ev_result2 (x : string * string) : event :=
  EvResult2 x.1 x.2.
Definition ev_write (intended_configs_path : path) (x : string * string)
    : event :=
  EvWrite (cfg_path intended_configs_path x.1) x.2.

(** *** The command line (lines 82-98)

    The command line is taken after argparse has split it into option
    occurrences: which of the three options occur, in which order, and with
    which argument string ([-m] may come without one, [nargs="?"]). *)

Inductive cli_option : Type :=
  | OptInventoryPath (v : string)
  | OptIntendedConfigsPath (v : string)
  | OptMaxWorkers (v : option string).

Record Namespace : Type := {
  ns_inventory_path : option path;
  ns_intended_configs_path : path;
  ns_max_workers : option Z
}.

(** The attributes before any option is seen: the declared defaults. *)
Definition namespace_defaults : Namespace :=
  {| ns_inventory_path := None;
     ns_intended_configs_path := ["intended"; "configs"];
     ns_max_workers := Some 10%Z |}.

Definition take_option (ns : Namespace) (o : cli_option) : exn + Namespace :=
  match o with
  | OptInventoryPath v =>
      inr {| ns_inventory_path := Some (Path_of_string v);
             ns_intended_configs_path := ns_intended_configs_path ns;
             ns_max_workers := ns_max_workers ns |}
  | OptIntendedConfigsPath v =>
      inr {| ns_inventory_path := ns_inventory_path ns;
             ns_intended_configs_path := Path_of_string v;
             ns_max_workers := ns_max_workers ns |}
  | OptMaxWorkers None =>
      inr {| ns_inventory_path := ns_inventory_path ns;
             ns_intended_configs_path := ns_intended_configs_path ns;
             ns_max_workers := None |}
  | OptMaxWorkers (Some v) =>
      match int_of_string v with
      | Some z =>
          inr {| ns_inventory_path := ns_inventory_path ns;
                 ns_intended_configs_path := ns_intended_configs_path ns;
                 ns_max_workers := Some z |}
      | None =>
          inl (SystemExit 2
                 ("argument -m/--max-workers: invalid int value: " +:+ v))
      end
  end.

Fixpoint take_options (ns : Namespace) (argv : list cli_option)
    : exn + Namespace :=
  match argv with
  | [] => inr ns
  | o :: argv' =>
      match take_option ns o with
      | inl e => inl e
      | inr ns' => take_options ns' argv'
      end
  end.

(** [parser.parse_args()]: the three arguments that [build] is called
    with, or the parser's error exit (status 2, with its message). *)
Definition parse_args (argv : list cli_option)
    : exn + (path * path * option Z) :=
  match take_options namespace_defaults argv with
  | inl e => inl e
  | inr ns =>
      match ns_inventory_path ns with
      | None =>
          inl (SystemExit 2
                 "the following arguments are required: -i/--inventory-path")
      | Some inventory_path =>
          inr (inventory_path, ns_intended_configs_path ns, ns_max_workers ns)
      end
  end.

Definition main (sched : scheduler) (argv : list cli_option) : M world unit :=
  match parse_args argv with
  | inl e => raise e
  | inr (inventory_path, intended_configs_path, max_workers) =>
      build sched inventory_path intended_configs_path max_workers
  end.

(** [def build(..., max_workers: int = 10)]: a call that leaves
    [max_workers] out. *)
Definition build_max_workers_default : option Z := Some 10%Z.

Definition build_with_default_workers (sched : scheduler)
    (inventory_path intended_configs_path : path) : M world unit :=
  build sched inventory_path intended_configs_path build_max_workers_default.

End Pipeline.

Arguments Future {_ A} _ _.
Arguments fut_effects {_ A} _.
Arguments fut_result {_ A} _.
Arguments written : simpl never.
Arguments submitted2 : simpl never.
Arguments render_invoked_for : simpl never.
Arguments submitted1 : simpl never.
Arguments results1 : simpl never.
Arguments results2 : simpl never.
Arguments printed : simpl never.

(** ** Properties of the data structures *)

(** *** Dictionaries *)

Lemma eqb_string_true (a b : string) : String.eqb a b = true ↔ a = b.
Proof. apply String.eqb_eq. Qed.

Lemma eqb_string_false (a b : string) : String.eqb a b = false ↔ a ≠ b.
Proof. apply String.eqb_neq. Qed.

Lemma dict_set_fresh {V} (k : string) (v : V) (d : dict V) :
  k ∉ dict_keys d → dict_set k v d = d ++ [(k, v)].
Proof.
  unfold dict_keys. induction d as [|[k' v'] d IH]; simpl; intros Hk; [done|].
  apply not_elem_of_cons in Hk as [Hne Hk].
  destruct (String.eqb k' k) eqn:E.
  - apply eqb_string_true in E. congruence.
  - by rewrite IH.
Qed.

Lemma dict_set_keys_present {V} (k : string) (v : V) (d : dict V) :
  k ∈ dict_keys d → dict_keys (dict_set k v d) = dict_keys d.
Proof.
  unfold dict_keys. induction d as [|[k' v'] d IH]; simpl; intros Hk.
  - by apply elem_of_nil in Hk.
  - destruct (String.eqb k' k) eqn:E.
    + apply eqb_string_true in E. by subst.
    + apply eqb_string_false in E. simpl. f_equal. apply IH.
      apply elem_of_cons in Hk as [->|Hk]; [done|exact Hk].
Qed.

Lemma dict_set_keys_NoDup {V} (k : string) (v : V) (d : dict V) :
  NoDup (dict_keys d) → NoDup (dict_keys (dict_set k v d)).
Proof.
  intros Hd. destruct (decide (k ∈ dict_keys d)) as [Hin|Hout].
  - by rewrite dict_set_keys_present.
  - rewrite dict_set_fresh by done. unfold dict_keys in Hd, Hout |- *.
    rewrite fmap_app. simpl. apply NoDup_app. split_and!; [done| |].
    + intros x Hx Hx'. apply list_elem_of_singleton in Hx'. by subst.
    + apply NoDup_singleton.
Qed.

Lemma dict_set_keys_elem {V} (h k : string) (v : V) (d : dict V) :
  h ∈ dict_keys (dict_set k v d) ↔ h = k ∨ h ∈ dict_keys d.
Proof.
  destruct (decide (k ∈ dict_keys d)) as [Hin|Hout].
  - rewrite dict_set_keys_present by done.
    split; [by right|]. by intros [->|?].
  - rewrite dict_set_fresh by done. unfold dict_keys. rewrite fmap_app.
    rewrite elem_of_app. simpl. rewrite list_elem_of_singleton. tauto.
Qed.

Lemma dict_set_elem {V} (x : string * V) (k : string) (v : V) (d : dict V) :
  x ∈ dict_set k v d → x = (k, v) ∨ x ∈ d.
Proof.
  induction d as [|[k' v'] d IH]; simpl.
  - rewrite list_elem_of_singleton. auto.
  - destruct (String.eqb k' k); rewrite !elem_of_cons; [tauto|].
    intros [?|Hx]; [tauto|]. apply IH in Hx. tauto.
Qed.

(** *** The completion order *)

Lemma pick_order_Permutation {A} (n : nat) (choices : list nat) (l : list A) :
  length l = n → pick_order n choices l ≡ₚ l.
Proof.
  revert choices l. induction n as [|n IH]; intros choices l Hlen; simpl.
  - by apply nil_length_inv in Hlen as ->.
  - set (i := (hd 0 choices `mod` length l)%nat).
    assert (Hi : (i < length l)%nat).
    { unfold i. apply Nat.mod_upper_bound. lia. }
    destruct (lookup_lt_is_Some_2 l i Hi) as [x Hx]. rewrite Hx.
    transitivity (x :: delete i l); [|symmetry; by apply delete_Permutation].
    constructor. apply IH.
    rewrite length_delete by eauto. lia.
Qed.

Lemma as_completed_by_Permutation {A} (choices : list nat) (l : list A) :
  as_completed_by choices l ≡ₚ l.
Proof. by apply pick_order_Permutation. Qed.

Lemma as_completed_Permutation {A} (p : pool) (phase : nat) (l : list A) :
  as_completed p phase l ≡ₚ l.
Proof. apply as_completed_by_Permutation. Qed.

Lemma pick_order_fmap {A B} (f : A → B) (n : nat) (choices : list nat)
    (l : list A) :
  pick_order n choices (f <$> l) = f <$> pick_order n choices l.
Proof.
  revert choices l. induction n as [|n IH]; intros choices l; simpl; [done|].
  rewrite length_fmap, list_lookup_fmap.
  destruct (l !! _) as [x|] eqn:Hx; simpl; [|done].
  f_equal. rewrite <- IH. f_equal.
  generalize (hd 0 choices `mod` length l)%nat. clear.
  induction l as [|y l IHl]; intros [|i]; simpl; try done. by rewrite IHl.
Qed.

Lemma as_completed_fmap {A B} (f : A → B) (p : pool) (phase : nat) (l : list A) :
  as_completed p phase (f <$> l) = f <$> as_completed p phase l.
Proof.
  unfold as_completed, as_completed_by. rewrite length_fmap. apply pick_order_fmap.
Qed.

(** The choices reach every order: the model leaves the pool free. *)
Lemma delete_middle {A} (l1 l2 : list A) (x : A) :
  delete (length l1) (l1 ++ x :: l2) = l1 ++ l2.
Proof. induction l1; simpl; [done|]. by f_equal. Qed.

Lemma as_completed_any_order {A} (l l' : list A) :
  l' ≡ₚ l → ∃ choices, as_completed_by choices l = l'.
Proof.
  revert l. induction l' as [|x l' IH]; intros l Hp.
  - apply Permutation_nil_l in Hp as <-. by exists [].
  - assert (Hx : x ∈ l) by (rewrite <- Hp; left).
    apply list_elem_of_split in Hx as (l1 & l2 & ->).
    apply Permutation_cons_app_inv in Hp.
    destruct (IH _ Hp) as [choices Hc].
    exists (length l1 :: choices). unfold as_completed_by in Hc |- *.
    assert (Hlen : length (l1 ++ x :: l2) = S (length (l1 ++ l2))).
    { rewrite !length_app. simpl. lia. }
    rewrite Hlen at 1. simpl.
    assert (Hmod : (length l1 `mod` length (l1 ++ x :: l2))%nat = length l1).
    { apply Nat.mod_small. rewrite length_app. simpl. lia. }
    rewrite Hmod, list_lookup_middle by done.
    by rewrite delete_middle, Hc.
Qed.

(** *** Opening a file for writing *)

Lemma path_parent_div (dir : path) (name : string) :
  path_parent (path_div dir name) = dir.
Proof. unfold path_parent, path_div. apply removelast_last. Qed.

Lemma open_write_present (dir : path) (name content : string)
    (fs0 : filesystem) :
  dir ∈ dirs fs0 →
  open_write (path_div dir name) content fs0
  = inr (Filesystem (dirs fs0) (<[path_div dir name := content]> (files fs0))).
Proof.
  intros Hdir. unfold open_write. rewrite path_parent_div.
  by destruct (decide (dir ∈ dirs fs0)).
Qed.

Lemma open_write_absent (dir : path) (name content : string)
    (fs0 : filesystem) :
  dir ∉ dirs fs0 →
  open_write (path_div dir name) content fs0
  = inl (FileNotFoundError (path_div dir name)).
Proof.
  intros Hdir. unfold open_write. rewrite path_parent_div.
  by destruct (decide (dir ∈ dirs fs0)).
Qed.

(** *** Loops that stop at the first failure *)

Lemma first_bad_None {A} (ok : A → bool) (l : list A) :
  first_bad ok l = None ↔ ∀ x, x ∈ l → ok x = true.
Proof.
  induction l as [|y l IH]; simpl.
  - split; [|done]. intros _ x Hx. by apply elem_of_nil in Hx.
  - destruct (ok y) eqn:Hy.
    + rewrite IH. split.
      * intros H x Hx. apply elem_of_cons in Hx as [->|Hx]; auto.
      * intros H x Hx. apply H. by right.
    + split; [done|]. intros H. rewrite H in Hy; [done|by left].
Qed.

Lemma first_bad_Some {A} (ok : A → bool) (l : list A) (x : A) :
  first_bad ok l = Some x → x ∈ l ∧ ok x = false.
Proof.
  induction l as [|y l IH]; simpl; [done|].
  destruct (ok y) eqn:Hy.
  - intros H. destruct (IH H). split; [by right|done].
  - intros [= ->]. split; [by left|done].
Qed.

Lemma first_bad_exists {A} (ok : A → bool) (l : list A) (x : A) :
  x ∈ l → ok x = false → ∃ y, first_bad ok l = Some y.
Proof.
  intros Hx Hbad. destruct (first_bad ok l) as [y|] eqn:E; [by exists y|].
  rewrite first_bad_None in E. rewrite (E x Hx) in Hbad. done.
Qed.

Lemma ok_prefix_all {A} (ok : A → bool) (l : list A) :
  first_bad ok l = None → ok_prefix ok l = l.
Proof.
  induction l as [|y l IH]; simpl; [done|].
  destruct (ok y); [|done]. intros H. by rewrite IH.
Qed.

Lemma ok_prefix_elem {A} (ok : A → bool) (l : list A) (x : A) :
  x ∈ ok_prefix ok l → x ∈ l ∧ ok x = true.
Proof.
  induction l as [|y l IH]; simpl.
  - intros Hx. by apply elem_of_nil in Hx.
  - destruct (ok y) eqn:Hy.
    + intros Hx. apply elem_of_cons in Hx as [->|Hx]; [split; [by left|done]|].
      destruct (IH Hx). split; [by right|done].
    + intros Hx. by apply elem_of_nil in Hx.
Qed.

Lemma ok_prefix_NoDup_keys {A B} (ok : A * B → bool) (l : list (A * B)) :
  NoDup l.*1 → NoDup (ok_prefix ok l).*1.
Proof.
  induction l as [|y l IH]; simpl; [done|].
  rewrite NoDup_cons. intros [Hy Hl]. destruct (ok y); simpl; [|apply NoDup_nil_2].
  apply NoDup_cons. split; [|by apply IH].
  rewrite list_elem_of_fmap. intros (z & Hz1 & Hz2).
  apply ok_prefix_elem in Hz2 as [Hz2 _]. apply Hy.
  rewrite list_elem_of_fmap. by exists z.
Qed.

(** *** Dictionaries with distinct keys *)

Lemma NoDup_keys_unique {A B} (l : list (A * B)) (k : A) (v v' : B) :
  NoDup l.*1 → (k, v) ∈ l → (k, v') ∈ l → v = v'.
Proof.
  induction l as [|[k0 v0] l IH]; simpl.
  - no_elements.
  - rewrite NoDup_cons. intros [Hk Hl] H1 H2.
    apply elem_of_cons in H1 as [E1|H1];
      apply elem_of_cons in H2 as [E2|H2]; [congruence| | |by auto].
    + exfalso. apply Hk. inversion E1; subst.
      apply list_elem_of_fmap. by exists (k0, v').
    + exfalso. apply Hk. inversion E2; subst.
      apply list_elem_of_fmap. by exists (k0, v).
Qed.

Lemma dict_of_items (V : Type) (l acc : dict V) :
  NoDup (dict_keys (acc ++ l)) →
  foldl (λ d y, dict_set y.1 y.2 d) acc l = acc ++ l.
Proof.
  revert acc. induction l as [|[k v] l IH]; intros acc Hnd; simpl.
  - by rewrite app_nil_r.
  - assert (Hk : k ∉ dict_keys acc).
    { unfold dict_keys in Hnd |- *. rewrite fmap_app in Hnd. simpl in Hnd.
      apply NoDup_app in Hnd as (_ & Hdisj & _).
      intros Hin. apply (Hdisj k Hin). by left. }
    rewrite dict_set_fresh by done.
    rewrite IH; rewrite <- app_assoc; done.
Qed.

Lemma keys_Permutation {V} (l l' : dict V) :
  l ≡ₚ l' → dict_keys l ≡ₚ dict_keys l'.
Proof. intros H. unfold dict_keys. by rewrite H. Qed.

(** *** The output names *)

Lemma string_app_cons (c : Ascii.ascii) (a b : string) :
  String c a +:+ b = String c (a +:+ b).
Proof. reflexivity. Qed.

Lemma string_length_app (a b : string) :
  String.length (a +:+ b) = (String.length a + String.length b)%nat.
Proof.
  induction a as [|c a IH]; [done|].
  rewrite string_app_cons. simpl. by rewrite IH.
Qed.

Lemma append_suffix_inj (a b suffix : string) :
  a +:+ suffix = b +:+ suffix → a = b.
Proof.
  revert b. induction a as [|c a IH]; intros [|c' b] H.
  - done.
  - apply (f_equal String.length) in H.
    rewrite !string_length_app in H. simpl in H. lia.
  - apply (f_equal String.length) in H.
    rewrite !string_length_app in H. simpl in H. lia.
  - rewrite !string_app_cons in H. injection H as -> H. f_equal. by apply IH.
Qed.

Lemma cfg_path_inj (intended_configs_path : path) (h h' : string) :
  cfg_path intended_configs_path h = cfg_path intended_configs_path h' → h = h'.
Proof.
  unfold cfg_path, path_div. intros H. apply app_inv_head in H.
  injection H as H. by apply append_suffix_inj in H.
Qed.

(** *** The files after a sequence of writes *)

Lemma writes_lookup_other (intended_configs_path : path)
    (l : list (string * string)) (m : gmap path string) (p : path) :
  (∀ y, y ∈ l → cfg_path intended_configs_path y.1 ≠ p) →
  foldl (λ m y, <[cfg_path intended_configs_path y.1 := y.2]> m) m l !! p
  = m !! p.
Proof.
  revert m. induction l as [|y l IH]; intros m Hp; simpl; [done|].
  rewrite IH.
  - apply lookup_insert_ne. apply Hp. by left.
  - intros z Hz. apply Hp. by right.
Qed.

Lemma writes_lookup_written (intended_configs_path : path)
    (l : list (string * string)) (m : gmap path string) (h c : string) :
  NoDup l.*1 → (h, c) ∈ l →
  foldl (λ m y, <[cfg_path intended_configs_path y.1 := y.2]> m) m l
    !! cfg_path intended_configs_path h = Some c.
Proof.
  revert m. induction l as [|y l IH]; intros m Hnd Hin; simpl.
  - by apply elem_of_nil in Hin.
  - simpl in Hnd. apply NoDup_cons in Hnd as [Hy Hnd].
    apply elem_of_cons in Hin as [<-|Hin]; [|by apply IH].
    rewrite writes_lookup_other; simpl; [apply lookup_insert_eq|].
    intros z Hz Heq. apply cfg_path_inj in Heq. apply Hy.
    rewrite <- Heq. apply list_elem_of_fmap. by exists z.
Qed.

(** *** Lists *)

Lemma split_after_prefix {A} (l1 l2 pre post : list A) (x : A) :
  pre ++ x :: post = l1 ++ l2 → x ∉ l1 →
  ∃ m, pre = l1 ++ m ∧ l2 = m ++ x :: post.
Proof.
  revert pre. induction l1 as [|a l1 IH]; intros pre Heq Hx; simpl in Heq |- *.
  - by exists pre.
  - apply not_elem_of_cons in Hx as [Hne Hx].
    destruct pre as [|b pre]; simpl in Heq.
    + injection Heq as -> _. done.
    + injection Heq as -> Heq. destruct (IH pre Heq Hx) as (m & -> & ->).
      by exists m.
Qed.

Lemma omap_none {A B} (f : A → option B) (l : list A) :
  (∀ x, x ∈ l → f x = None) → omap f l = [].
Proof.
  induction l as [|x l IH]; simpl; intros H; [done|].
  rewrite (H x) by (by left). apply IH. intros y Hy. apply H. by right.
Qed.

(** ** Properties of the pipeline *)

Section Properties.

Context {collaborators : Collaborators}.

(** *** The hosts that are built: lines 47-52 *)

Lemma collect_hostvars_fold (inventory_path : path) :
  collect_hostvars inventory_path
  = foldl (hostvars_step inventory_path) [] (inventory_hosts inventory_path).
Proof. reflexivity. Qed.

Lemma hostvars_fold_spec (inventory_path : path) (l : list string)
    (acc : dict HostVars) :
  NoDup (dict_keys acc) →
  let d := foldl (hostvars_step inventory_path) acc l in
  NoDup (dict_keys d)
  ∧ (∀ h, h ∈ dict_keys d ↔ h ∈ dict_keys acc ∨ (h ∈ l ∧ h ≠ "cvp"))
  ∧ (∀ h v, (h, v) ∈ d → (h, v) ∈ acc ∨ v = get_vars inventory_path h).
Proof.
  revert acc. induction l as [|x l IH]; intros acc Hacc; simpl.
  - split_and!; [done| |by auto]. intros h. rewrite elem_of_nil. tauto.
  - assert (Hstep : NoDup (dict_keys (hostvars_step inventory_path acc x))).
    { unfold hostvars_step. destruct (String.eqb x "cvp"); [done|].
      by apply dict_set_keys_NoDup. }
    destruct (IH _ Hstep) as (Hnd & Hkeys & Hvals). split_and!; [done| |].
    + intros h. rewrite Hkeys. unfold hostvars_step.
      destruct (String.eqb x "cvp") eqn:E.
      * apply eqb_string_true in E. subst x. rewrite elem_of_cons.
        split; [tauto|]. intros [?|[[->|?] ?]]; tauto.
      * apply eqb_string_false in E. rewrite dict_set_keys_elem, elem_of_cons.
        split; [intros [[->|?]|?]; tauto|tauto].
    + intros h v Hin. destruct (Hvals h v Hin) as [Hin'|]; [|by right].
      unfold hostvars_step in Hin'. destruct (String.eqb x "cvp"); [by left|].
      apply dict_set_elem in Hin' as [Heq|]; [|by left].
      right. by inversion Heq.
Qed.

Lemma collect_hostvars_NoDup (inventory_path : path) :
  NoDup (dict_keys (collect_hostvars inventory_path)).
Proof.
  rewrite collect_hostvars_fold.
  apply (hostvars_fold_spec inventory_path _ []). apply NoDup_nil_2.
Qed.

Lemma collect_hostvars_keys (inventory_path : path) (h : string) :
  h ∈ dict_keys (collect_hostvars inventory_path)
  ↔ h ∈ inventory_hosts inventory_path ∧ h ≠ "cvp".
Proof.
  rewrite collect_hostvars_fold.
  destruct (hostvars_fold_spec inventory_path (inventory_hosts inventory_path) [])
    as (_ & Hkeys & _); [apply NoDup_nil_2|].
  rewrite Hkeys. unfold dict_keys. simpl. rewrite elem_of_nil. tauto.
Qed.

Lemma collect_hostvars_values (inventory_path : path) (h : string) (v : HostVars) :
  (h, v) ∈ collect_hostvars inventory_path → v = get_vars inventory_path h.
Proof.
  rewrite collect_hostvars_fold. intros Hin.
  destruct (hostvars_fold_spec inventory_path (inventory_hosts inventory_path) [])
    as (_ & _ & Hvals); [apply NoDup_nil_2|].
  destruct (Hvals h v Hin) as [Hnil|]; [|done]. by apply elem_of_nil in Hnil.
Qed.

(** *** The task wrappers *)

Lemma for_each_print (errors : list ErrorRecord) (log : list effect) :
  for_each errors print log = (inr tt, log ++ (Print <$> errors)).
Proof.
  revert log. induction errors as [|r errors IH]; intros log; simpl.
  - by rewrite app_nil_r.
  - unfold bind at 1. unfold print at 1, tell. rewrite IH.
    by rewrite <- app_assoc.
Qed.

Lemma build_structured_config_run (hostname : string) (inputs : HostVars)
    (avd_facts : Facts) (log : list effect) :
  build_structured_config hostname inputs avd_facts log
  = if failed (validate_inputs inputs)
    then (inl (RuntimeError (hostname +:+ " validate_inputs failed")),
          log ++ CallValidateInputs inputs
              :: (Print <$> validation_errors (validate_inputs inputs)))
    else (inr (hostname,
               get_device_structured_config hostname inputs avd_facts),
          log ++ [CallValidateInputs inputs;
                  CallGetDeviceStructuredConfig hostname inputs avd_facts]).
Proof.
  unfold build_structured_config, bind, tell.
  destruct (failed (validate_inputs inputs)).
  - rewrite for_each_print. unfold raise. by rewrite <- app_assoc.
  - unfold ret. by rewrite <- app_assoc.
Qed.

Lemma build_designed_config_run (hostname : string)
    (structured_config : StructuredConfig) (log : list effect) :
  build_designed_config hostname structured_config log
  = if failed (validate_structured_config structured_config)
    then (inl (RuntimeError
                 (hostname +:+ " validate_structured_config failed")),
          log ++ CallValidateStructuredConfig structured_config
              :: (Print <$> validation_errors
                              (validate_structured_config structured_config)))
    else (inr (hostname, get_device_config structured_config),
          log ++ [CallValidateStructuredConfig structured_config;
                  CallGetDeviceConfig structured_config]).
Proof.
  unfold build_designed_config, bind, tell.
  destruct (failed (validate_structured_config structured_config)).
  - rewrite for_each_print. unfold raise. by rewrite <- app_assoc.
  - unfold ret. by rewrite <- app_assoc.
Qed.

Lemma stage1_future_result (avd_facts : Facts) (x : string * HostVars) :
  fut_result (run_task (build_structured_config x.1 x.2 avd_facts))
  = if inputs_ok x then inr (stage1_result avd_facts x)
    else inl (RuntimeError (x.1 +:+ " validate_inputs failed")).
Proof.
  unfold run_task, inputs_ok, stage1_result.
  rewrite build_structured_config_run.
  by destruct (failed (validate_inputs x.2)).
Qed.

Lemma stage2_future_result (x : string * StructuredConfig) :
  fut_result (run_task (build_designed_config x.1 x.2))
  = if structured_ok x then inr (stage2_result x)
    else inl (RuntimeError (x.1 +:+ " validate_structured_config failed")).
Proof.
  unfold run_task, structured_ok, stage2_result.
  rewrite build_designed_config_run.
  by destruct (failed (validate_structured_config x.2)).
Qed.

(** *** Stage 1: lines 59-66 *)

Lemma world_eta (w : world) : World (trace w) (fs w) = w.
Proof. by destruct w. Qed.

Lemma stage1_submit (p : pool) (avd_facts : Facts) (l : dict HostVars)
    (w : world) :
  for_list (dict_items l)
    (λ '(hostname, hostvars),
       submit p (EvSubmit1 hostname hostvars avd_facts)
         (build_structured_config hostname hostvars avd_facts)) w
  = (inr ((λ x, run_task (build_structured_config x.1 x.2 avd_facts)) <$> l),
     World (trace w ++ (ev_submit1 avd_facts <$> l)) (fs w)).
Proof.
  unfold dict_items. revert w.
  induction l as [|[h v] l IH]; intros w; simpl.
  - unfold ret. by rewrite app_nil_r, world_eta.
  - unfold bind, submit, emit, ret in IH |- *. simpl. rewrite IH. simpl.
    by rewrite <- app_assoc.
Qed.

Lemma stage1_gather (avd_facts : Facts) (l : list (string * HostVars))
    (acc : dict StructuredConfig) (w : world) :
  for_fold ((λ x, run_task (build_structured_config x.1 x.2 avd_facts)) <$> l)
    (λ structured_configs future,
       do '(hostname, structured_config) <-
         result (λ '(h, sc), EvResult1 h sc) future;
       ret (dict_set hostname structured_config structured_configs))
    acc w
  = let w' :=
      World (trace w
             ++ (ev_result1 <$> (stage1_result avd_facts
                                   <$> ok_prefix inputs_ok l)))
        (fs w) in
    match first_bad inputs_ok l with
    | Some x => (inl (RuntimeError (x.1 +:+ " validate_inputs failed")), w')
    | None =>
        (inr (foldl (λ d y, dict_set y.1 y.2 d) acc
                (stage1_result avd_facts <$> l)), w')
    end.
Proof.
  revert acc w. induction l as [|x l IH]; intros acc w; simpl.
  - unfold ret. by rewrite app_nil_r, world_eta.
  - unfold bind, result in IH |- *. rewrite stage1_future_result.
    destruct (inputs_ok x) eqn:Hok; simpl.
    + unfold emit, ret in IH |- *. simpl. rewrite IH. simpl.
      by rewrite <- app_assoc.
    + unfold raise. by rewrite app_nil_r, world_eta.
Qed.

Lemma stage1_run (p : pool) (all_hostvars : dict HostVars) (avd_facts : Facts)
    (w : world) :
  stage1 p all_hostvars avd_facts w
  = let order := as_completed p 1 all_hostvars in
    let w' :=
      World (trace w
             ++ (ev_submit1 avd_facts <$> all_hostvars)
             ++ (ev_result1 <$> (stage1_result avd_facts
                                   <$> ok_prefix inputs_ok order)))
        (fs w) in
    match first_bad inputs_ok order with
    | Some x => (inl (RuntimeError (x.1 +:+ " validate_inputs failed")), w')
    | None =>
        (inr (foldl (λ d y, dict_set y.1 y.2 d) []
                (stage1_result avd_facts <$> order)), w')
    end.
Proof.
  unfold stage1. unfold bind at 1. rewrite stage1_submit.
  rewrite as_completed_fmap, stage1_gather. simpl.
  rewrite <- app_assoc. done.
Qed.

(** *** Stage 2 and the writer: lines 69-79 *)

Lemma stage2_submit (p : pool) (l : dict StructuredConfig) (w : world) :
  for_list (dict_items l)
    (λ '(hostname, structured_config),
       submit p (EvSubmit2 hostname structured_config)
         (build_designed_config hostname structured_config)) w
  = (inr ((λ x, run_task (build_designed_config x.1 x.2)) <$> l),
     World (trace w ++ (ev_submit2 <$> l)) (fs w)).
Proof.
  unfold dict_items. revert w.
  induction l as [|[h sc] l IH]; intros w; simpl.
  - unfold ret. by rewrite app_nil_r, world_eta.
  - unfold bind, submit, emit, ret in IH |- *. simpl. rewrite IH. simpl.
    by rewrite <- app_assoc.
Qed.

(** The files after writing the configs of [l], in order. *)
Lemma stage2_write_present (intended_configs_path : path)
    (l : list (string * StructuredConfig)) (w : world) :
  intended_configs_path ∈ dirs (fs w) →
  for_each ((λ x, run_task (build_designed_config x.1 x.2)) <$> l)
    (λ future,
       do '(hostname, designed_config) <-
         result (λ '(h, c), EvResult2 h c) future;
       write_file (path_div intended_configs_path (hostname +:+ ".cfg"))
         designed_config) w
  = let written := stage2_result <$> ok_prefix structured_ok l in
    (match first_bad structured_ok l with
     | Some x =>
         inl (RuntimeError (x.1 +:+ " validate_structured_config failed"))
     | None => inr tt
     end,
     World
       (trace w
        ++ (written ≫= λ y, [ev_result2 y; ev_write intended_configs_path y]))
       (Filesystem (dirs (fs w))
          (foldl (λ m y, <[cfg_path intended_configs_path y.1 := y.2]> m)
             (files (fs w)) written))).
Proof.
  revert w. induction l as [|x l IH]; intros w Hdir; simpl.
  - unfold ret. rewrite app_nil_r. by destruct w as [t [d f]].
  - unfold bind, result in IH |- *. rewrite stage2_future_result.
    destruct (structured_ok x) eqn:Hok; simpl.
    + unfold emit, ret, write_file in IH |- *. simpl.
      rewrite open_write_present by done. rewrite IH by done. simpl.
      by rewrite <- !app_assoc.
    + unfold raise. rewrite app_nil_r. by destruct w as [t [d f]].
Qed.

Lemma stage2_write_absent (intended_configs_path : path)
    (l : list (string * StructuredConfig)) (w : world) :
  intended_configs_path ∉ dirs (fs w) →
  for_each ((λ x, run_task (build_designed_config x.1 x.2)) <$> l)
    (λ future,
       do '(hostname, designed_config) <-
         result (λ '(h, c), EvResult2 h c) future;
       write_file (path_div intended_configs_path (hostname +:+ ".cfg"))
         designed_config) w
  = match l with
    | [] => (inr tt, w)
    | x :: _ =>
        if structured_ok x
        then (inl (FileNotFoundError (cfg_path intended_configs_path x.1)),
              World (trace w ++ [ev_result2 (stage2_result x)]) (fs w))
        else (inl (RuntimeError
                     (x.1 +:+ " validate_structured_config failed")), w)
    end.
Proof.
  intros Hdir. destruct l as [|x l]; simpl; [done|].
  unfold bind, result. rewrite stage2_future_result.
  destruct (structured_ok x) eqn:Hok; simpl; [|done].
  unfold emit, ret, write_file. simpl.
  by rewrite open_write_absent.
Qed.

(** *** The keys of the stage results *)

Lemma keys_stage1_result (avd_facts : Facts) (l : dict HostVars) :
  dict_keys (stage1_result avd_facts <$> l) = dict_keys l.
Proof.
  unfold dict_keys. rewrite <- list_fmap_compose. by apply list_fmap_ext.
Qed.

Lemma keys_stage2_result (l : dict StructuredConfig) :
  dict_keys (stage2_result <$> l) = dict_keys l.
Proof.
  unfold dict_keys. rewrite <- list_fmap_compose. by apply list_fmap_ext.
Qed.

(** *** A whole run *)

Lemma stage2_run_present (p : pool) (intended_configs_path : path)
    (structured_configs : dict StructuredConfig) (w : world) :
  intended_configs_path ∈ dirs (fs w) →
  stage2 p intended_configs_path structured_configs w
  = let order := as_completed p 2 structured_configs in
    let written := stage2_result <$> ok_prefix structured_ok order in
    (match first_bad structured_ok order with
     | Some x =>
         inl (RuntimeError (x.1 +:+ " validate_structured_config failed"))
     | None => inr tt
     end,
     World
       (trace w
        ++ (ev_submit2 <$> structured_configs)
        ++ (written ≫= λ y, [ev_result2 y; ev_write intended_configs_path y]))
       (Filesystem (dirs (fs w))
          (foldl (λ m y, <[cfg_path intended_configs_path y.1 := y.2]> m)
             (files (fs w)) written))).
Proof.
  intros Hdir. unfold stage2. unfold bind at 1. rewrite stage2_submit.
  rewrite as_completed_fmap, stage2_write_present by done. simpl.
  by rewrite <- app_assoc.
Qed.

Lemma stage2_run_absent (p : pool) (intended_configs_path : path)
    (structured_configs : dict StructuredConfig) (w : world) :
  intended_configs_path ∉ dirs (fs w) →
  stage2 p intended_configs_path structured_configs w
  = let w' := World (trace w ++ (ev_submit2 <$> structured_configs)) (fs w) in
    match as_completed p 2 structured_configs with
    | [] => (inr tt, w')
    | x :: _ =>
        if structured_ok x
        then (inl (FileNotFoundError (cfg_path intended_configs_path x.1)),
              World (trace w' ++ [ev_result2 (stage2_result x)]) (fs w))
        else (inl (RuntimeError
                     (x.1 +:+ " validate_structured_config failed")), w')
    end.
Proof.
  intros Hdir. unfold stage2. unfold bind at 1. rewrite stage2_submit.
  by rewrite as_completed_fmap, stage2_write_absent.
Qed.

Lemma build_run (sched : scheduler) (inventory_path intended_configs_path : path)
    (max_workers : option Z) (w : world) :
  build sched inventory_path intended_configs_path max_workers w
  = let all_hostvars := collect_hostvars inventory_path in
    let avd_facts := get_avd_facts all_hostvars in
    let pool := ProcessPoolExecutor sched max_workers in
    let order := as_completed pool 1 all_hostvars in
    let w1 :=
      World (trace w
             ++ EvGetAvdFacts all_hostvars
             :: (ev_submit1 avd_facts <$> all_hostvars)
             ++ (ev_result1 <$> (stage1_result avd_facts
                                   <$> ok_prefix inputs_ok order)))
        (fs w) in
    match first_bad inputs_ok order with
    | Some x => (inl (RuntimeError (x.1 +:+ " validate_inputs failed")), w1)
    | None =>
        stage2 pool intended_configs_path (stage1_result avd_facts <$> order) w1
    end.
Proof.
  unfold build, call_get_avd_facts. unfold bind at 1. unfold bind at 1.
  unfold emit, ret at 1. unfold bind at 1. rewrite stage1_run. simpl.
  destruct (first_bad _ _) eqn:Hbad; simpl.
  - by rewrite <- app_assoc.
  - rewrite (dict_of_items _ _ []); simpl; [by rewrite <- app_assoc|].
    rewrite keys_stage1_result.
    rewrite (keys_Permutation _ _ (as_completed_Permutation _ _ _)).
    apply collect_hostvars_NoDup.
Qed.

(** *** The claims about the task wrappers and the command line *)

(** C2. [build_structured_config] raises exactly when [validate_inputs]
    reports [failed]; it then has printed every entry of
    [validation_errors], in order, and has neither called
    [get_device_structured_config] nor returned a structured config.
    Otherwise it prints nothing and returns the host name with the
    structured config.  [build_designed_config] does the same against
    [validate_structured_config] and returns the rendered config. *)
Theorem task_wrappers_raise_iff_validation_fails
    (hostname : string) (inputs : HostVars) (avd_facts : Facts)
    (structured_config : StructuredConfig) :
  let results1 := validate_inputs inputs in
  let out1 := build_structured_config hostname inputs avd_facts [] in
  let results2 := validate_structured_config structured_config in
  let out2 := build_designed_config hostname structured_config [] in
  ((∃ e, out1.1 = inl e) ↔ failed results1 = true)
  ∧ (failed results1 = true →
     out1 = (inl (RuntimeError (hostname +:+ " validate_inputs failed")),
             CallValidateInputs inputs
             :: (Print <$> validation_errors results1)))
  ∧ (failed results1 = false →
     out1 = (inr (hostname,
                  get_device_structured_config hostname inputs avd_facts),
             [CallValidateInputs inputs;
              CallGetDeviceStructuredConfig hostname inputs avd_facts]))
  ∧ ((∃ e, out2.1 = inl e) ↔ failed results2 = true)
  ∧ (failed results2 = true →
     out2 = (inl (RuntimeError
                    (hostname +:+ " validate_structured_config failed")),
             CallValidateStructuredConfig structured_config
             :: (Print <$> validation_errors results2)))
  ∧ (failed results2 = false →
     out2 = (inr (hostname, get_device_config structured_config),
             [CallValidateStructuredConfig structured_config;
              CallGetDeviceConfig structured_config])).
Proof.
  simpl. rewrite build_structured_config_run, build_designed_config_run.
  destruct (failed (validate_inputs inputs));
    destruct (failed (validate_structured_config structured_config));
    simpl; split_and!; try done; try (split; [by intros [e He]|done]);
    try (split; [done|by eexists]).
Qed.

Lemma take_options_keeps_output (argv : list cli_option) (ns ns' : Namespace) :
  take_options ns argv = inr ns' →
  (∀ v, OptIntendedConfigsPath v ∉ argv) →
  ns_intended_configs_path ns' = ns_intended_configs_path ns.
Proof.
  revert ns. induction argv as [|o argv IH]; simpl; intros ns H Hno.
  - by injection H as <-.
  - destruct (take_option ns o) as [e|ns1] eqn:Ho; [done|].
    rewrite (IH ns1 H); [|intros v Hv; apply (Hno v); by right].
    destruct o as [v|v|[v|]]; simpl in Ho.
    + by injection Ho as <-.
    + exfalso. apply (Hno v). by left.
    + destruct (int_of_string v); [|done]. by injection Ho as <-.
    + by injection Ho as <-.
Qed.

Lemma take_options_keeps_workers (argv : list cli_option) (ns ns' : Namespace) :
  take_options ns argv = inr ns' →
  (∀ v, OptMaxWorkers v ∉ argv) →
  ns_max_workers ns' = ns_max_workers ns.
Proof.
  revert ns. induction argv as [|o argv IH]; simpl; intros ns H Hno.
  - by injection H as <-.
  - destruct (take_option ns o) as [e|ns1] eqn:Ho; [done|].
    rewrite (IH ns1 H); [|intros v Hv; apply (Hno v); by right].
    destruct o as [v|v|v]; simpl in Ho.
    + by injection Ho as <-.
    + by injection Ho as <-.
    + exfalso. apply (Hno v). by left.
Qed.

Lemma take_options_inventory (argv : list cli_option) (ns ns' : Namespace)
    (inventory_path : path) :
  take_options ns argv = inr ns' →
  ns_inventory_path ns' = Some inventory_path →
  ns_inventory_path ns = Some inventory_path
  ∨ ∃ v, OptInventoryPath v ∈ argv.
Proof.
  revert ns. induction argv as [|o argv IH]; simpl; intros ns H Hsome.
  - injection H as <-. by left.
  - destruct (take_option ns o) as [e|ns1] eqn:Ho; [done|].
    destruct (IH ns1 H Hsome) as [H1|[v Hv]].
    + destruct o as [v|v|[v|]]; simpl in Ho.
      * right. exists v. by left.
      * injection Ho as <-. by left.
      * destruct (int_of_string v); [|done]. injection Ho as <-. by left.
      * injection Ho as <-. by left.
    + right. exists v. by right.
Qed.

(** C8. The command line must name the inventory; the output directory is
    [intended/configs] unless [-o] is given and the worker count is 10 unless
    [-m] is given; [build] itself takes 10 workers when the argument is left
    out. *)
Theorem cli_required_and_defaults (sched : scheduler) (argv : list cli_option) :
  match parse_args argv with
  | inr (inventory_path, intended_configs_path, max_workers) =>
      (∃ v, OptInventoryPath v ∈ argv)
      ∧ ((∀ v, OptIntendedConfigsPath v ∉ argv) →
         intended_configs_path = ["intended"; "configs"])
      ∧ ((∀ v, OptMaxWorkers v ∉ argv) → max_workers = Some 10%Z)
      ∧ main sched argv
        = build sched inventory_path intended_configs_path max_workers
  | inl e =>
      main sched argv = raise e
      ∧ ((∀ v, OptInventoryPath v ∉ argv) → ∃ msg, e = SystemExit 2 msg)
  end
  ∧ ((∀ v, OptInventoryPath v ∉ argv) → ∃ e, parse_args argv = inl e)
  ∧ (∀ v, parse_args [OptInventoryPath v]
          = inr (Path_of_string v, ["intended"; "configs"], Some 10%Z))
  ∧ (∀ inventory_path intended_configs_path,
       build_with_default_workers sched inventory_path intended_configs_path
       = build sched inventory_path intended_configs_path (Some 10%Z)).
Proof.
  assert (Hreq : (∀ v, OptInventoryPath v ∉ argv) →
                 ∃ msg, parse_args argv = inl (SystemExit 2 msg)).
  { intros Hno. unfold parse_args.
    destruct (take_options namespace_defaults argv) as [e|ns] eqn:Hns.
    - clear Hno. revert Hns. generalize namespace_defaults.
      induction argv as [|o argv IH]; simpl; intros ns Hns; [done|].
      destruct (take_option ns o) as [e'|ns1] eqn:Ho; [|by eapply IH].
      injection Hns as <-. destruct o as [v|v|[v|]]; simpl in Ho; try done.
      destruct (int_of_string v); [done|]. injection Ho as <-. by eexists.
    - destruct (ns_inventory_path ns) as [ip|] eqn:Hip; [|by eexists].
      destruct (take_options_inventory _ _ _ _ Hns Hip) as [H|[v Hv]];
        [done|by destruct (Hno v)]. }
  split_and!.
  - destruct (parse_args argv) as [e|[[ip op] mw]] eqn:Hparse.
    + split; [by unfold main; rewrite Hparse|].
      intros Hno. destruct (Hreq Hno) as [msg Hmsg]. exists msg. congruence.
    + unfold parse_args in Hparse.
      destruct (take_options namespace_defaults argv) as [e|ns] eqn:Hns; [done|].
      destruct (ns_inventory_path ns) as [ip'|] eqn:Hip; [|done].
      injection Hparse as -> <- <-. split_and!.
      * destruct (take_options_inventory _ _ _ _ Hns Hip) as [H|H]; done.
      * intros Hno. by rewrite (take_options_keeps_output _ _ _ Hns Hno).
      * intros Hno. by rewrite (take_options_keeps_workers _ _ _ Hns Hno).
      * unfold main, parse_args. by rewrite Hns, Hip.
  - intros Hno. destruct (Hreq Hno) as [msg Hmsg]. by eexists.
  - done.
  - done.
Qed.

(** *** The shape of a run's trace *)

(** The facts, then every Stage 1 submission, then the Stage 1 results that
    were retrieved, then (only when all of them were) every Stage 2
    submission, then results and writes. *)
Lemma build_trace (sched : scheduler)
    (inventory_path intended_configs_path : path) (max_workers : option Z)
    (fs0 : filesystem) :
  let all_hostvars := collect_hostvars inventory_path in
  let avd_facts := get_avd_facts all_hostvars in
  let out :=
    build sched inventory_path intended_configs_path max_workers
      (World [] fs0) in
  ∃ (done1 : list (string * HostVars))
    (submitted : list (string * StructuredConfig)) (tail : list event),
    trace out.2
    = EvGetAvdFacts all_hostvars
      :: (ev_submit1 avd_facts <$> all_hostvars)
      ++ (ev_result1 <$> (stage1_result avd_facts <$> done1))
      ++ (ev_submit2 <$> submitted) ++ tail
    ∧ (∀ x, x ∈ done1 → x ∈ all_hostvars ∧ inputs_ok x = true)
    ∧ (submitted = [] ∧ tail = []
       ∨ done1 ≡ₚ all_hostvars
         ∧ submitted = stage1_result avd_facts <$> done1)
    ∧ (∀ ev, ev ∈ tail →
         ∃ y, y ∈ submitted ∧ structured_ok y = true
              ∧ (ev = ev_result2 (stage2_result y)
                 ∨ ev = ev_write intended_configs_path (stage2_result y))).
Proof.
  simpl. rewrite build_run. simpl.
  set (hv := collect_hostvars inventory_path).
  set (p := ProcessPoolExecutor sched max_workers).
  assert (Hperm : as_completed p 1 hv ≡ₚ hv) by apply as_completed_Permutation.
  destruct (first_bad inputs_ok (as_completed p 1 hv)) as [x|] eqn:Hbad.
  - exists (ok_prefix inputs_ok (as_completed p 1 hv)), [], []. simpl.
    split_and!.
    + by rewrite app_nil_r.
    + intros y Hy. apply ok_prefix_elem in Hy as [Hy ?].
      rewrite Hperm in Hy. done.
    + by left.
    + no_elements.
  - rewrite (ok_prefix_all _ _ Hbad).
    assert (Hok : ∀ x, x ∈ as_completed p 1 hv → x ∈ hv ∧ inputs_ok x = true).
    { intros y Hy. split; [by rewrite <- Hperm|].
      by apply (proj1 (first_bad_None _ _) Hbad). }
    set (scs := stage1_result (get_avd_facts hv) <$> as_completed p 1 hv).
    destruct (decide (intended_configs_path ∈ dirs fs0)) as [Hdir|Hdir].
    + rewrite stage2_run_present by done. simpl.
      eexists (as_completed p 1 hv), scs, _. split_and!.
      * rewrite <- !app_assoc. reflexivity.
      * done.
      * by right.
      * intros ev Hev. apply list_elem_of_bind in Hev as (y & Hev & Hy).
        apply list_elem_of_fmap in Hy as (z & -> & Hz).
        apply ok_prefix_elem in Hz as [Hz Hzok].
        exists z. split; [|split; [done|]].
        -- by rewrite <- (as_completed_Permutation p 2 scs).
        -- apply elem_of_cons in Hev as [->|Hev]; [by left|].
           apply list_elem_of_singleton in Hev as ->. by right.
    + rewrite stage2_run_absent by done. simpl.
      destruct (as_completed p 2 scs) as [|y order2] eqn:Horder2.
      * exists (as_completed p 1 hv), scs, []. simpl. split_and!.
        -- by rewrite app_nil_r, <- !app_assoc.
        -- done.
        -- by right.
        -- no_elements.
      * assert (Hy : y ∈ scs).
        { rewrite <- (as_completed_Permutation p 2 scs), Horder2. by left. }
        destruct (structured_ok y) eqn:Hyok.
        -- exists (as_completed p 1 hv), scs, [ev_result2 (stage2_result y)].
           simpl. split_and!.
           ++ by rewrite <- !app_assoc.
           ++ done.
           ++ by right.
           ++ intros ev Hev. apply list_elem_of_singleton in Hev as ->.
              exists y. auto.
        -- exists (as_completed p 1 hv), scs, []. simpl. split_and!.
           ++ by rewrite app_nil_r, <- !app_assoc.
           ++ done.
           ++ by right.
           ++ no_elements.
Qed.

Lemma worker_facts_submit1 (x : string * HostVars) (avd_facts : Facts)
    (h : string) (v : HostVars) (f : Facts) :
  CallGetDeviceStructuredConfig h v f
    ∈ worker_effects (ev_submit1 avd_facts x) →
  f = avd_facts.
Proof.
  simpl. unfold run_task. rewrite build_structured_config_run.
  destruct (failed (validate_inputs x.2)); simpl.
  - rewrite elem_of_cons, list_elem_of_fmap. by intros [?|(? & ? & _)].
  - rewrite !elem_of_cons, elem_of_nil. intros [?|[Heq|[]]]; [done|].
    by injection Heq.
Qed.

Lemma worker_facts_submit2 (y : string * StructuredConfig)
    (h : string) (v : HostVars) (f : Facts) :
  CallGetDeviceStructuredConfig h v f ∉ worker_effects (ev_submit2 y).
Proof.
  simpl. unfold run_task. rewrite build_designed_config_run.
  destruct (failed (validate_structured_config y.2)); simpl.
  - rewrite elem_of_cons, list_elem_of_fmap. by intros [?|(? & ? & _)].
  - rewrite !elem_of_cons, elem_of_nil. by intros [?|[?|[]]].
Qed.

Lemma collect_hostvars_empty (inventory_path : path) :
  (∀ h, h ∈ inventory_hosts inventory_path → h = "cvp") →
  collect_hostvars inventory_path = [].
Proof.
  intros Hcvp. destruct (collect_hostvars inventory_path) as [|[h v] l] eqn:E;
    [done|].
  assert (Hh : h ∈ dict_keys (collect_hostvars inventory_path)).
  { rewrite E. unfold dict_keys. simpl. by left. }
  apply collect_hostvars_keys in Hh as [Hin Hne]. by apply Hcvp in Hin.
Qed.

(** *** The claims about the order of a run *)



(** C3. A Stage 2 task is submitted only after the Stage 1 task of every
    host has been submitted, has completed and has handed back its result;
    the structured config it is submitted with is the one that the Stage 1
    task of the same host returned.  Nothing of Stage 1 happens after it. *)
Theorem stage2_submitted_after_stage1_barrier (sched : scheduler)
    (inventory_path intended_configs_path : path) (max_workers : option Z)
    (fs0 : filesystem) (pre post : list event) (hostname : string)
    (structured_config : StructuredConfig) :
  let all_hostvars := collect_hostvars inventory_path in
  let avd_facts := get_avd_facts all_hostvars in
  trace (build sched inventory_path intended_configs_path max_workers
           (World [] fs0)).2
  = pre ++ EvSubmit2 hostname structured_config :: post →
  (∀ h v, (h, v) ∈ all_hostvars →
     EvSubmit1 h v avd_facts ∈ pre
     ∧ EvResult1 h (get_device_structured_config h v avd_facts) ∈ pre
     ∧ failed (validate_inputs v) = false)
  ∧ (∃ v, (hostname, v) ∈ all_hostvars
          ∧ structured_config
            = get_device_structured_config hostname v avd_facts
          ∧ EvResult1 hostname structured_config ∈ pre)
  ∧ (∀ ev, ev ∈ post → match ev with
                        | EvGetAvdFacts _ | EvSubmit1 _ _ _ | EvResult1 _ _ =>
                            False
                        | _ => True
                        end).
Proof.
  simpl. intros Htr.
  destruct (build_trace sched inventory_path intended_configs_path max_workers
              fs0) as (done1 & submitted & tail & Htrace & Hdone & Hsub & Htail).
  simpl in Htrace. rewrite Htr in Htrace. clear Htr.
  set (hv := collect_hostvars inventory_path) in Htrace, Hdone, Hsub, Htail |- *.
  set (facts := get_avd_facts hv) in Htrace, Hdone, Hsub, Htail |- *.
  change (EvGetAvdFacts hv :: (ev_submit1 facts <$> hv)
          ++ (ev_result1 <$> (stage1_result facts <$> done1))
          ++ (ev_submit2 <$> submitted) ++ tail)
    with ((EvGetAvdFacts hv :: (ev_submit1 facts <$> hv))
          ++ (ev_result1 <$> (stage1_result facts <$> done1))
          ++ (ev_submit2 <$> submitted) ++ tail) in Htrace.
  rewrite (app_assoc _ _ (_ ++ tail)) in Htrace.
  apply split_after_prefix in Htrace as (m & -> & Hrest).
  2:{ rewrite elem_of_app, elem_of_cons, !list_elem_of_fmap.
      intros [[?|(x & ? & _)]|(x & ? & _)]; done. }
  assert (Hin : EvSubmit2 hostname structured_config
                ∈ (ev_submit2 <$> submitted) ++ tail).
  { rewrite Hrest. apply elem_of_app. right. by left. }
  destruct Hsub as [[-> ->]|[Hperm ->]].
  { simpl in Hin. by apply elem_of_nil in Hin. }
  split_and!.
  - intros h v Hhv. split_and!.
    + apply elem_of_app. left. apply elem_of_app. left. right.
      apply list_elem_of_fmap. by exists (h, v).
    + apply elem_of_app. left. apply elem_of_app. right.
      apply list_elem_of_fmap. exists (stage1_result facts (h, v)).
      split; [done|]. apply list_elem_of_fmap. exists (h, v).
      split; [done|]. by rewrite Hperm.
    + rewrite <- Hperm in Hhv. destruct (Hdone _ Hhv) as [_ Hok].
      unfold inputs_ok in Hok. simpl in Hok. by apply negb_true_iff in Hok.
  - apply elem_of_app in Hin as [Hin|Hin].
    + apply list_elem_of_fmap in Hin as (y & Hy & Hyin).
      apply list_elem_of_fmap in Hyin as ([h v] & -> & Hx).
      injection Hy as -> ->. exists v. split_and!.
      * by rewrite <- Hperm.
      * done.
      * apply elem_of_app. left. apply elem_of_app. right.
        apply list_elem_of_fmap. exists (stage1_result facts (h, v)).
        split; [done|]. apply list_elem_of_fmap. by exists (h, v).
    + destruct (Htail _ Hin) as (y & _ & _ & [Hy|Hy]); done.
  - intros ev Hev.
    assert (Hev' : ev ∈ (ev_submit2 <$> (stage1_result facts <$> done1)) ++ tail).
    { rewrite Hrest. apply elem_of_app. right. by right. }
    apply elem_of_app in Hev' as [Hev'|Hev'].
    + by apply list_elem_of_fmap in Hev' as (y & -> & _).
    + by destruct (Htail _ Hev') as (y & _ & _ & [->| ->]).
Qed.

(** *** What a run persists *)

Lemma written_app (t1 t2 : list event) :
  written (t1 ++ t2) = written t1 ++ written t2.
Proof. apply omap_app. Qed.

Lemma written_none (t : list event) :
  (∀ ev, ev ∈ t → is_write ev = false) → written t = [].
Proof.
  intros Hno. apply omap_none. intros ev Hev. specialize (Hno ev Hev).
  by destruct ev.
Qed.

Lemma written_results (intended_configs_path : path)
    (l : list (string * string)) :
  written (l ≫= λ y, [ev_result2 y; ev_write intended_configs_path y])
  = (λ y, (cfg_path intended_configs_path y.1, y.2)) <$> l.
Proof.
  induction l as [|y l IH]; [done|].
  rewrite fmap_cons, <- IH. reflexivity.
Qed.

Lemma written_stage1 (all_hostvars : dict HostVars) (avd_facts : Facts)
    (done1 : list (string * StructuredConfig))
    (submitted : list (string * StructuredConfig)) (tail : list event) :
  written (EvGetAvdFacts all_hostvars
           :: (ev_submit1 avd_facts <$> all_hostvars)
           ++ (ev_result1 <$> done1) ++ (ev_submit2 <$> submitted) ++ tail)
  = written tail.
Proof.
  change (EvGetAvdFacts all_hostvars :: ?l) with ([EvGetAvdFacts all_hostvars] ++ l).
  rewrite !written_app.
  rewrite (written_none [_]), !(written_none (_ <$> _)); [done|..];
    intros ev Hev.
  - by apply list_elem_of_fmap in Hev as (? & -> & _).
  - by apply list_elem_of_fmap in Hev as (? & -> & _).
  - by apply list_elem_of_fmap in Hev as (? & -> & _).
  - by apply list_elem_of_singleton in Hev as ->.
Qed.

Lemma filesystem_eta (fs0 : filesystem) :
  Filesystem (dirs fs0) (files fs0) = fs0.
Proof. by destruct fs0. Qed.

(** The configs that a run persists: each belongs to a host that passed
    both validations, no host has two, and the run is a success exactly when
    every host passes both validations and there is somewhere to write. *)
Lemma build_persisted (sched : scheduler)
    (inventory_path intended_configs_path : path) (max_workers : option Z)
    (fs0 : filesystem) :
  let all_hostvars := collect_hostvars inventory_path in
  let avd_facts := get_avd_facts all_hostvars in
  let out :=
    build sched inventory_path intended_configs_path max_workers
      (World [] fs0) in
  ∃ persisted : list (string * StructuredConfig),
    (∀ y, y ∈ persisted →
       structured_ok y = true
       ∧ ∃ x, x ∈ all_hostvars ∧ inputs_ok x = true
              ∧ y = stage1_result avd_facts x)
    ∧ NoDup persisted.*1
    ∧ written (trace out.2)
      = (λ y, (cfg_path intended_configs_path y.1, y.2))
        <$> (stage2_result <$> persisted)
    ∧ fs out.2
      = Filesystem (dirs fs0)
          (foldl (λ m y, <[cfg_path intended_configs_path y.1 := y.2]> m)
             (files fs0) (stage2_result <$> persisted))
    ∧ (persisted ≠ [] → intended_configs_path ∈ dirs fs0)
    ∧ (persisted ≠ [] → ∀ x, x ∈ all_hostvars → inputs_ok x = true)
    ∧ (out.1 = inr tt → persisted.*1 ≡ₚ dict_keys all_hostvars)
    ∧ (out.1 = inr tt
       ↔ (∀ x, x ∈ all_hostvars →
            inputs_ok x = true
            ∧ structured_ok (stage1_result avd_facts x) = true)
         ∧ (all_hostvars = [] ∨ intended_configs_path ∈ dirs fs0)).
Proof.
  simpl. rewrite build_run. simpl.
  set (hv := collect_hostvars inventory_path).
  set (facts := get_avd_facts hv).
  set (p := ProcessPoolExecutor sched max_workers).
  assert (Hperm : as_completed p 1 hv ≡ₚ hv) by apply as_completed_Permutation.
  destruct (first_bad inputs_ok (as_completed p 1 hv)) as [x|] eqn:Hbad.
  { (* Stage 1 fails *)
    exists []. simpl. rewrite filesystem_eta.
    apply first_bad_Some in Hbad as [Hx Hxbad]. rewrite Hperm in Hx.
    split_and!; try done.
    - no_elements.
    - apply NoDup_nil_2.
    - apply written_none. intros ev Hev.
      apply elem_of_cons in Hev as [->|Hev]; [done|].
      apply elem_of_app in Hev as [Hev|Hev];
        by apply list_elem_of_fmap in Hev as (? & -> & _).
    - split; [done|]. intros [Hall _]. destruct (Hall x Hx) as [Hok _].
      congruence. }
  rewrite (ok_prefix_all _ _ Hbad).
  assert (Hok1 : ∀ x, x ∈ hv → inputs_ok x = true).
  { intros x Hx. apply (proj1 (first_bad_None _ _) Hbad). by rewrite Hperm. }
  set (scs := stage1_result facts <$> as_completed p 1 hv).
  assert (Hperm2 : as_completed p 2 scs ≡ₚ scs)
    by apply as_completed_Permutation.
  assert (Hscs : ∀ y, y ∈ scs ↔ ∃ x, x ∈ hv ∧ y = stage1_result facts x).
  { intros y. unfold scs. rewrite list_elem_of_fmap. split.
    - intros (x & -> & Hx). exists x. by rewrite <- Hperm.
    - intros (x & Hx & ->). exists x. by rewrite Hperm. }
  assert (Hkeys : dict_keys scs ≡ₚ dict_keys hv).
  { unfold scs. rewrite keys_stage1_result. by apply keys_Permutation. }
  assert (Hnd : NoDup (as_completed p 2 scs).*1).
  { rewrite (keys_Permutation _ _ Hperm2), Hkeys. apply collect_hostvars_NoDup. }
  destruct (decide (intended_configs_path ∈ dirs fs0)) as [Hdir|Hdir].
  - (* the directory is there *)
    rewrite stage2_run_present by done. simpl.
    exists (ok_prefix structured_ok (as_completed p 2 scs)). split_and!.
    + intros y Hy. apply ok_prefix_elem in Hy as [Hy Hyok].
      split; [done|]. rewrite Hperm2 in Hy. apply Hscs in Hy as (x & Hx & ->).
      exists x. auto.
    + by apply ok_prefix_NoDup_keys.
    + rewrite <- ?app_assoc, (written_stage1 hv facts scs scs).
      apply written_results.
    + done.
    + done.
    + done.
    + destruct (first_bad structured_ok (as_completed p 2 scs)) eqn:Hbad2;
        [done|]. intros _. rewrite (ok_prefix_all _ _ Hbad2).
      by rewrite (keys_Permutation _ _ Hperm2).
    + destruct (first_bad structured_ok (as_completed p 2 scs)) as [y|]
        eqn:Hbad2.
      * split; [done|]. intros [Hall _].
        apply first_bad_Some in Hbad2 as [Hy Hybad]. rewrite Hperm2 in Hy.
        apply Hscs in Hy as (x & Hx & ->). destruct (Hall x Hx). congruence.
      * split; [|done]. intros _. split; [|by right]. intros x Hx.
        split; [by apply Hok1|].
        apply (proj1 (first_bad_None _ _) Hbad2). rewrite Hperm2.
        apply Hscs. by exists x.
  - (* the directory is not there *)
    rewrite stage2_run_absent by done. simpl.
    exists []. simpl. rewrite filesystem_eta.
    destruct (as_completed p 2 scs) as [|y order2] eqn:Horder2.
    + assert (Hhv : hv = []).
      { apply Permutation_nil_l in Hperm2. symmetry in Hperm2.
        unfold scs in Hperm2. apply fmap_nil_inv in Hperm2.
        rewrite Hperm2 in Hperm. by apply Permutation_nil_l in Hperm. }
      simpl. split_and!.
      * no_elements.
      * apply NoDup_nil_2.
      * rewrite <- (app_nil_r (ev_submit2 <$> scs)), <- ?app_assoc.
        by rewrite (written_stage1 hv facts scs scs).
      * done.
      * done.
      * done.
      * by rewrite Hhv.
      * split; [|done]. intros _. rewrite Hhv. split; [|by left].
        no_elements.
    + assert (Hy : y ∈ scs) by (rewrite <- Hperm2; left).
      apply Hscs in Hy as (x & Hx & ->).
      assert (Hfail : (∀ x, x ∈ hv →
                         inputs_ok x = true
                         ∧ structured_ok (stage1_result facts x) = true)
                      ∧ (hv = [] ∨ intended_configs_path ∈ dirs fs0) → False).
      { intros [_ [Hnil|Hd]]; [|done]. rewrite Hnil in Hx.
        by apply elem_of_nil in Hx. }
      destruct (structured_ok (stage1_result facts x)) eqn:Hxok; simpl.
      * split_and!.
        -- no_elements.
        -- apply NoDup_nil_2.
        -- rewrite <- ?app_assoc.
           by rewrite (written_stage1 hv facts scs scs).
        -- done.
        -- done.
        -- done.
        -- done.
        -- split; [done|]. intros Hall. by destruct (Hfail Hall).
      * split_and!.
        -- no_elements.
        -- apply NoDup_nil_2.
        -- rewrite <- (app_nil_r (ev_submit2 <$> scs)), <- ?app_assoc.
           by rewrite (written_stage1 hv facts scs scs).
        -- done.
        -- done.
        -- done.
        -- done.
        -- split; [done|]. intros Hall. by destruct (Hfail Hall).
Qed.

Lemma hostvars_pair_unique (inventory_path : path) (x : string * HostVars)
    (h : string) (v : HostVars) :
  x ∈ collect_hostvars inventory_path →
  (h, v) ∈ collect_hostvars inventory_path →
  x.1 = h → x = (h, v).
Proof.
  destruct x as [h' v']. simpl. intros Hx Hhv ->. f_equal.
  eapply NoDup_keys_unique; [apply collect_hostvars_NoDup|done..].
Qed.

(** After a successful run: one write per host, to the host's own file,
    holding the host's rendered config; every other file is as it was. *)
Lemma build_success_files (sched : scheduler)
    (inventory_path intended_configs_path : path) (max_workers : option Z)
    (fs0 : filesystem) :
  let all_hostvars := collect_hostvars inventory_path in
  let avd_facts := get_avd_facts all_hostvars in
  let out :=
    build sched inventory_path intended_configs_path max_workers
      (World [] fs0) in
  out.1 = inr tt →
  (written (trace out.2)).*1
  ≡ₚ cfg_path intended_configs_path <$> dict_keys all_hostvars
  ∧ (∀ h v, (h, v) ∈ all_hostvars →
       files (fs out.2) !! cfg_path intended_configs_path h
       = Some (get_device_config
                 (get_device_structured_config h v avd_facts)))
  ∧ (∀ p, p ∉ cfg_path intended_configs_path <$> dict_keys all_hostvars →
       files (fs out.2) !! p = files fs0 !! p)
  ∧ dirs (fs out.2) = dirs fs0.
Proof.
  simpl. intros Hsucc.
  destruct (build_persisted sched inventory_path intended_configs_path
              max_workers fs0)
    as (persisted & Hper & Hnd & Hwr & Hfs & _ & _ & Hkeys & _).
  simpl in Hper, Hwr, Hfs, Hkeys. specialize (Hkeys Hsucc).
  rewrite Hwr, Hfs. simpl. split_and!.
  - rewrite <- Hkeys. unfold dict_keys.
    rewrite <- !list_fmap_compose. done.
  - intros h v Hhv.
    assert (Hh : h ∈ persisted.*1).
    { rewrite Hkeys. apply list_elem_of_fmap. by exists (h, v). }
    apply list_elem_of_fmap in Hh as (y & Hy1 & Hy).
    destruct (Hper y Hy) as (_ & x & Hx & _ & Hyx).
    assert (x = (h, v)) as ->.
    { apply (hostvars_pair_unique inventory_path); [done..|].
      rewrite Hy1, Hyx. done. }
    apply writes_lookup_written.
    + change (NoDup (dict_keys (stage2_result <$> persisted))).
      rewrite keys_stage2_result. exact Hnd.
    + apply list_elem_of_fmap. exists y. split; [by rewrite Hyx|done].
  - intros p0 Hp. apply writes_lookup_other. intros z Hz Heq. apply Hp.
    apply list_elem_of_fmap in Hz as (y & -> & Hy). rewrite <- Heq.
    apply list_elem_of_fmap_2. unfold dict_keys. rewrite <- Hkeys.
    apply list_elem_of_fmap. by exists y.
  - done.
Qed.

(** *** The claims about what is written *)


(** *** What Stage 2 is given, and who calls the renderer *)

Lemma submitted2_app (t1 t2 : list event) :
  submitted2 (t1 ++ t2) = submitted2 t1 ++ submitted2 t2.
Proof. apply omap_app. Qed.

Lemma submitted2_none (t : list event) :
  (∀ ev, ev ∈ t → is_submit2 ev = false) → submitted2 t = [].
Proof.
  intros Hno. apply omap_none. intros ev Hev. specialize (Hno ev Hev).
  by destruct ev.
Qed.

Lemma submitted2_submits (l : list (string * StructuredConfig)) :
  submitted2 (ev_submit2 <$> l) = l.
Proof.
  induction l as [|[h sc] l IH]; [done|].
  rewrite fmap_cons.
  change ((h, sc) :: submitted2 (ev_submit2 <$> l) = (h, sc) :: l).
  by rewrite IH.
Qed.

Lemma stage2_trace (p : pool) (intended_configs_path : path)
    (structured_configs : dict StructuredConfig) (w : world) :
  ∃ tail,
    trace (stage2 p intended_configs_path structured_configs w).2
    = trace w ++ (ev_submit2 <$> structured_configs) ++ tail
    ∧ (∀ ev, ev ∈ tail → is_submit2 ev = false).
Proof.
  destruct (decide (intended_configs_path ∈ dirs (fs w))) as [Hdir|Hdir].
  - rewrite stage2_run_present by done. simpl. eexists. split; [done|].
    intros ev Hev. apply list_elem_of_bind in Hev as (y & Hev & _).
    apply elem_of_cons in Hev as [->|Hev]; [done|].
    by apply list_elem_of_singleton in Hev as ->.
  - rewrite stage2_run_absent by done. simpl.
    destruct (as_completed p 2 structured_configs) as [|y l].
    + exists []. simpl. rewrite app_nil_r. split; [done|].
      no_elements.
    + destruct (structured_ok y); simpl.
      * exists [ev_result2 (stage2_result y)]. rewrite <- app_assoc.
        split; [done|]. intros ev Hev.
        by apply list_elem_of_singleton in Hev as ->.
      * exists []. rewrite app_nil_r. split; [done|].
        no_elements.
Qed.

Lemma no_render_in_prints (errors : list ErrorRecord) :
  existsb is_render_call (Print <$> errors) = false.
Proof. induction errors as [|r errors IH]; [done|]. exact IH. Qed.

Lemma stage1_effects_no_render (h : string) (v : HostVars) (f : Facts) :
  existsb is_render_call (worker_effects (EvSubmit1 h v f)) = false.
Proof.
  simpl. unfold run_task. rewrite build_structured_config_run.
  destruct (failed (validate_inputs v)); simpl; [|done].
  apply no_render_in_prints.
Qed.

Lemma stage2_effects_render (y : string * StructuredConfig) :
  existsb is_render_call (worker_effects (ev_submit2 y)) = structured_ok y.
Proof.
  unfold structured_ok. simpl. unfold run_task.
  rewrite build_designed_config_run.
  destruct (failed (validate_structured_config y.2)); simpl; [|done].
  apply no_render_in_prints.
Qed.

(** The renderer is called for a host only when the host passed both
    validations. *)
Lemma render_invoked_sound (sched : scheduler)
    (inventory_path intended_configs_path : path) (max_workers : option Z)
    (fs0 : filesystem) (h : string) :
  let all_hostvars := collect_hostvars inventory_path in
  let avd_facts := get_avd_facts all_hostvars in
  render_invoked_for h
    (trace (build sched inventory_path intended_configs_path max_workers
              (World [] fs0)).2) = true →
  ∃ v, (h, v) ∈ all_hostvars ∧ inputs_ok (h, v) = true
       ∧ structured_ok (stage1_result avd_facts (h, v)) = true.
Proof.
  simpl. intros Hr.
  destruct (build_trace sched inventory_path intended_configs_path max_workers
              fs0) as (done1 & submitted & tail & Htrace & Hdone & Hsub & Htail).
  simpl in Htrace. rewrite Htrace in Hr. clear Htrace.
  unfold render_invoked_for in Hr.
  apply existsb_exists in Hr as (ev & Hev & Hr).
  apply andb_true_iff in Hr as [Hfor Hcall].
  apply list_elem_of_In in Hev.
  rewrite elem_of_cons, !elem_of_app, !list_elem_of_fmap in Hev.
  destruct Hev as [->|[(x & -> & _)|[(x & -> & _)|[(y & -> & Hy)|Hev]]]].
  - done.
  - unfold ev_submit1 in Hcall. by rewrite stage1_effects_no_render in Hcall.
  - done.
  - rewrite stage2_effects_render in Hcall.
    destruct Hsub as [[-> _]|[Hperm ->]]; [by apply elem_of_nil in Hy|].
    apply list_elem_of_fmap in Hy as ([h' v] & -> & Hx).
    simpl in Hfor. apply eqb_string_true in Hfor as ->.
    destruct (Hdone _ Hx) as [Hin Hok]. by exists v.
  - destruct (Htail _ Hev) as (y & _ & _ & [->| ->]); done.
Qed.


(** *** The claims about failures *)

Lemma render_not_invoked_before_stage2 (h : string) (t : list event) :
  (∀ ev, ev ∈ t → is_submit2 ev = false) → render_invoked_for h t = false.
Proof.
  intros Hno. destruct (render_invoked_for h t) eqn:Hr; [|done].
  unfold render_invoked_for in Hr.
  apply existsb_exists in Hr as (ev & Hev & Hr).
  apply andb_true_iff in Hr as [Hfor Hcall].
  apply list_elem_of_In in Hev. specialize (Hno ev Hev).
  destruct ev; try done. by rewrite stage1_effects_no_render in Hcall.
Qed.


(** *** The claims about repeated runs and the output directory *)

Lemma filesystem_eq (fs1 fs2 : filesystem) :
  dirs fs1 = dirs fs2 → (∀ p, files fs1 !! p = files fs2 !! p) → fs1 = fs2.
Proof.
  destruct fs1 as [d1 f1], fs2 as [d2 f2]. simpl. intros -> Hfiles.
  f_equal. by apply map_eq.
Qed.

(** Two successful runs end with the same files when they start from file
    systems that agree outside the output names. *)
Lemma success_fs_determined (sched sched' : scheduler)
    (inventory_path intended_configs_path : path)
    (max_workers max_workers' : option Z) (fs0 fs0' : filesystem) :
  let all_hostvars := collect_hostvars inventory_path in
  let a :=
    build sched inventory_path intended_configs_path max_workers
      (World [] fs0) in
  let b :=
    build sched' inventory_path intended_configs_path max_workers'
      (World [] fs0') in
  a.1 = inr tt → b.1 = inr tt →
  dirs fs0 = dirs fs0' →
  (∀ p, p ∉ cfg_path intended_configs_path <$> dict_keys all_hostvars →
        files fs0 !! p = files fs0' !! p) →
  fs a.2 = fs b.2.
Proof.
  simpl. intros Ha Hb Hdirs Hout.
  destruct (build_success_files sched inventory_path intended_configs_path
              max_workers fs0 Ha) as (_ & Hfa & Hoa & Hda).
  destruct (build_success_files sched' inventory_path intended_configs_path
              max_workers' fs0' Hb) as (_ & Hfb & Hob & Hdb).
  simpl in Hfa, Hoa, Hda, Hfb, Hob, Hdb.
  apply filesystem_eq; [congruence|]. intros p.
  destruct (decide (p ∈ cfg_path intended_configs_path
                        <$> dict_keys (collect_hostvars inventory_path)))
    as [Hin|Hnotin].
  - apply list_elem_of_fmap in Hin as (h & -> & Hh).
    apply list_elem_of_fmap in Hh as ([h' v] & -> & Hhv). simpl.
    by rewrite (Hfa h' v Hhv), (Hfb h' v Hhv).
  - rewrite (Hoa p Hnotin), (Hob p Hnotin). by apply Hout.
Qed.



End Properties.

(** ** Further properties of the data structures *)

Lemma omap_fmap_some {A B C} (f : B → option C) (g : A → B) (h : A → C)
    (l : list A) :
  (∀ x, f (g x) = Some (h x)) → omap f (g <$> l) = h <$> l.
Proof.
  intros Hf. induction l as [|x l IH]; [done|].
  rewrite !fmap_cons, <- IH.
  change (omap f (g x :: (g <$> l)))
    with (match f (g x) with
          | Some y => y :: omap f (g <$> l)
          | None => omap f (g <$> l)
          end).
  by rewrite Hf.
Qed.

Lemma omap_fmap_none {A B C} (f : B → option C) (g : A → B) (l : list A) :
  (∀ x, f (g x) = None) → omap f (g <$> l) = [].
Proof.
  intros Hf. apply omap_none. intros y Hy.
  by apply list_elem_of_fmap in Hy as (x & -> & _).
Qed.

Lemma split_before_suffix {A} (l1 l2 pre post : list A) (x : A) :
  l1 ++ l2 = pre ++ x :: post → x ∉ l2 → ∃ post', l1 = pre ++ x :: post'.
Proof.
  revert pre. induction l1 as [|a l1 IH]; intros pre Heq Hx; simpl in Heq.
  - destruct Hx. rewrite Heq. apply elem_of_app. right. by left.
  - destruct pre as [|b pre]; simpl in Heq.
    + injection Heq as -> _. by exists l1.
    + injection Heq as -> Heq. destruct (IH pre Heq Hx) as [post' ->].
      by exists post'.
Qed.

(** In a list of pairs laid out flat, an element that is no first component
    comes right after the first component of its pair. *)
Lemma pairs_split {A B} (a b : A → B) (l : list A) (m post : list B) (x : B) :
  (l ≫= λ y, [a y; b y]) = m ++ x :: post → (∀ y, x ≠ a y) →
  ∃ m' y, m = m' ++ [a y] ∧ x = b y ∧ y ∈ l.
Proof.
  revert m. induction l as [|y l IH]; intros m Heq Hx.
  - by destruct m.
  - change ((y :: l) ≫= λ y, [a y; b y])
      with (a y :: b y :: (l ≫= λ y, [a y; b y])) in Heq.
    destruct m as [|m0 [|m1 m2]]; simpl in Heq.
    + injection Heq as Heq _. by destruct (Hx y).
    + injection Heq as <- <- _. exists [], y. split_and!; [done..|by left].
    + injection Heq as <- <- Heq.
      destruct (IH m2 Heq Hx) as (m' & y' & -> & -> & Hy').
      exists (a y :: b y :: m'), y'. split_and!; [done..|by right].
Qed.

Lemma writes_keep_files (intended_configs_path : path)
    (l : list (string * string)) (m : gmap path string) (p : path) :
  is_Some (m !! p) →
  is_Some (foldl (λ m y, <[cfg_path intended_configs_path y.1 := y.2]> m) m l
             !! p).
Proof.
  revert m. induction l as [|y l IH]; intros m Hm; simpl; [done|].
  apply IH. destruct (decide (cfg_path intended_configs_path y.1 = p)) as [<-|Hne].
  - rewrite lookup_insert_eq. by eexists.
  - by rewrite lookup_insert_ne.
Qed.

(** The loop of lines 49-52 on hosts that are all different: the hosts other
    than [cvp], in order. *)
Lemma dict_set_fold_distinct {V} (f : string → V) (l : list string)
    (acc : dict V) :
  NoDup (dict_keys acc ++ l) →
  foldl (λ d h, if String.eqb h "cvp" then d else dict_set h (f h) d) acc l
  = acc ++ ((λ h, (h, f h)) <$> filter (λ h, h ≠ "cvp") l).
Proof.
  revert acc. induction l as [|x l IH]; intros acc Hnd; simpl.
  - by rewrite app_nil_r.
  - assert (Hx : x ∉ dict_keys acc).
    { apply NoDup_app in Hnd as (_ & Hdisj & _). intros Hin.
      apply (Hdisj x Hin). by left. }
    assert (Hrest : NoDup (dict_keys acc ++ l)).
    { apply NoDup_app in Hnd as (Ha & Hdisj & Hl). apply NoDup_cons in Hl as [_ Hl].
      apply NoDup_app. split_and!; [done| |done].
      intros y Hy Hyl. apply (Hdisj y Hy). by right. }
    destruct (String.eqb x "cvp") eqn:E.
    + apply eqb_string_true in E. rewrite filter_cons_False by (by intros []).
      by apply IH.
    + apply eqb_string_false in E. rewrite filter_cons_True by done.
      rewrite dict_set_fresh by done. rewrite IH.
      * rewrite fmap_cons, <- app_assoc. done.
      * unfold dict_keys. rewrite fmap_app, <- app_assoc. simpl.
        exact Hnd.
Qed.

(** ** Further properties of the pipeline *)

Section FurtherProperties.

Context {collaborators : Collaborators}.

(** *** The exact shape of a trace *)

(** Either Stage 1 was cut short by a host with bad inputs and nothing
    follows, or Stage 2 was submitted with the Stage 1 results in the order
    they were retrieved.  What follows the Stage 2 submissions is a sequence
    of results, each with its write, when the output directory exists, and at
    most one result otherwise. *)
Lemma build_trace_exact (sched : scheduler)
    (inventory_path intended_configs_path : path) (max_workers : option Z)
    (fs0 : filesystem) :
  let all_hostvars := collect_hostvars inventory_path in
  let avd_facts := get_avd_facts all_hostvars in
  let out :=
    build sched inventory_path intended_configs_path max_workers
      (World [] fs0) in
  ∃ (retrieved submitted : list (string * StructuredConfig))
    (tail : list event),
    trace out.2
    = EvGetAvdFacts all_hostvars
      :: (ev_submit1 avd_facts <$> all_hostvars)
      ++ (ev_result1 <$> retrieved)
      ++ (ev_submit2 <$> submitted) ++ tail
    ∧ (∀ y, y ∈ retrieved →
         ∃ x, x ∈ all_hostvars ∧ y = stage1_result avd_facts x)
    ∧ (submitted = retrieved
       ∧ (∀ x, x ∈ all_hostvars → inputs_ok x = true)
       ∧ dict_keys retrieved ≡ₚ dict_keys all_hostvars
       ∨ submitted = [] ∧ tail = []
         ∧ ∃ x, x ∈ all_hostvars ∧ inputs_ok x = false)
    ∧ (intended_configs_path ∈ dirs fs0
       ∧ (∃ done2 : list (string * string),
            tail = done2
                   ≫= λ y, [ev_result2 y; ev_write intended_configs_path y])
       ∨ (intended_configs_path ∉ dirs fs0)
         ∧ ∃ done2 : list (string * string), tail = ev_result2 <$> done2).
Proof.
  simpl. rewrite build_run. simpl.
  set (hv := collect_hostvars inventory_path).
  set (facts := get_avd_facts hv).
  set (p := ProcessPoolExecutor sched max_workers).
  assert (Hperm : as_completed p 1 hv ≡ₚ hv) by apply as_completed_Permutation.
  assert (Htail0 :
            intended_configs_path ∈ dirs fs0
            ∧ (∃ done2 : list (string * string),
                 [] = done2
                      ≫= λ y, [ev_result2 y;
                               ev_write intended_configs_path y])
            ∨ (intended_configs_path ∉ dirs fs0)
              ∧ ∃ done2 : list (string * string),
                  [] = ev_result2 (collaborators := collaborators) <$> done2).
  { destruct (decide (intended_configs_path ∈ dirs fs0));
      [left|right]; (split; [done|by exists []]). }
  destruct (first_bad inputs_ok (as_completed p 1 hv)) as [x|] eqn:Hbad.
  - exists (stage1_result facts <$> ok_prefix inputs_ok (as_completed p 1 hv)),
      [], []. simpl. split_and!.
    + by rewrite app_nil_r.
    + intros y Hy. apply list_elem_of_fmap in Hy as (z & -> & Hz).
      apply ok_prefix_elem in Hz as [Hz _]. exists z. by rewrite <- Hperm.
    + right. split_and!; [done..|]. apply first_bad_Some in Hbad as [Hx Hxbad].
      exists x. by rewrite <- Hperm.
    + exact Htail0.
  - rewrite (ok_prefix_all _ _ Hbad).
    assert (Hok : ∀ x, x ∈ hv → inputs_ok x = true).
    { intros x Hx. apply (proj1 (first_bad_None _ _) Hbad). by rewrite Hperm. }
    set (scs := stage1_result facts <$> as_completed p 1 hv).
    assert (Hscs : ∀ y, y ∈ scs → ∃ x, x ∈ hv ∧ y = stage1_result facts x).
    { intros y Hy. apply list_elem_of_fmap in Hy as (z & -> & Hz).
      exists z. by rewrite <- Hperm. }
    assert (Hkeys : dict_keys scs ≡ₚ dict_keys hv).
    { unfold scs. rewrite keys_stage1_result. by apply keys_Permutation. }
    destruct (decide (intended_configs_path ∈ dirs fs0)) as [Hdir|Hdir].
    + rewrite stage2_run_present by done. simpl.
      eexists scs, scs, _. split_and!.
      * rewrite <- !app_assoc. reflexivity.
      * exact Hscs.
      * by left.
      * left. split; [done|]. by eexists.
    + rewrite stage2_run_absent by done. simpl.
      destruct (as_completed p 2 scs) as [|y order2].
      * exists scs, scs, []. simpl. split_and!.
        -- by rewrite app_nil_r, <- !app_assoc.
        -- exact Hscs.
        -- by left.
        -- exact Htail0.
      * destruct (structured_ok y).
        -- exists scs, scs, [ev_result2 (stage2_result y)]. simpl. split_and!.
           ++ by rewrite <- !app_assoc.
           ++ exact Hscs.
           ++ by left.
           ++ right. split; [done|]. by exists [stage2_result y].
        -- exists scs, scs, []. simpl. split_and!.
           ++ by rewrite app_nil_r, <- !app_assoc.
           ++ exact Hscs.
           ++ by left.
           ++ exact Htail0.
Qed.

(** *** Reading the parts of a trace *)

Lemma results2_pairs (intended_configs_path : path)
    (l : list (string * string)) :
  results2 (l ≫= λ y, [ev_result2 y; ev_write intended_configs_path y]) = l.
Proof.
  induction l as [|[h c] l IH]; [done|].
  change ((h, c)
          :: results2 (l ≫= λ y, [ev_result2 y;
                                  ev_write intended_configs_path y])
          = (h, c) :: l).
  by rewrite IH.
Qed.

Lemma printed_prints (errors : list ErrorRecord) :
  printed (Print <$> errors) = errors.
Proof.
  unfold printed. rewrite (omap_fmap_some _ _ id); [|done].
  apply list_fmap_id.
Qed.

(** [f] read off a whole trace, part by part. *)
Lemma omap_trace {C} (f : event → option C) (all_hostvars : dict HostVars)
    (avd_facts : Facts) (retrieved submitted : list (string * StructuredConfig))
    (tail : list event) :
  omap f (EvGetAvdFacts all_hostvars
          :: (ev_submit1 avd_facts <$> all_hostvars)
          ++ (ev_result1 <$> retrieved)
          ++ (ev_submit2 <$> submitted) ++ tail)
  = omap f [EvGetAvdFacts all_hostvars]
    ++ omap f (ev_submit1 avd_facts <$> all_hostvars)
    ++ omap f (ev_result1 <$> retrieved)
    ++ omap f (ev_submit2 <$> submitted) ++ omap f tail.
Proof.
  transitivity
    (omap f ([EvGetAvdFacts all_hostvars]
             ++ (ev_submit1 avd_facts <$> all_hostvars)
             ++ (ev_result1 <$> retrieved)
             ++ (ev_submit2 <$> submitted) ++ tail)); [done|].
  by rewrite !omap_app.
Qed.

Lemma submitted1_trace (all_hostvars : dict HostVars) (avd_facts : Facts)
    (retrieved submitted : list (string * StructuredConfig))
    (tail : list event) :
  submitted1 (EvGetAvdFacts all_hostvars
              :: (ev_submit1 avd_facts <$> all_hostvars)
              ++ (ev_result1 <$> retrieved)
              ++ (ev_submit2 <$> submitted) ++ tail)
  = ((λ x, (x.1, x.2, avd_facts)) <$> all_hostvars) ++ submitted1 tail.
Proof.
  unfold submitted1. rewrite omap_trace.
  rewrite (omap_fmap_some _ _ (λ x, (x.1, x.2, avd_facts))) by done.
  by rewrite !omap_fmap_none by done.
Qed.

Lemma results1_trace (all_hostvars : dict HostVars) (avd_facts : Facts)
    (retrieved submitted : list (string * StructuredConfig))
    (tail : list event) :
  results1 (EvGetAvdFacts all_hostvars
            :: (ev_submit1 avd_facts <$> all_hostvars)
            ++ (ev_result1 <$> retrieved)
            ++ (ev_submit2 <$> submitted) ++ tail)
  = retrieved ++ results1 tail.
Proof.
  unfold results1. rewrite omap_trace.
  rewrite (omap_fmap_some _ ev_result1 id) by (by intros []).
  rewrite !omap_fmap_none by done. by rewrite list_fmap_id.
Qed.

Lemma submitted2_trace (all_hostvars : dict HostVars) (avd_facts : Facts)
    (retrieved submitted : list (string * StructuredConfig))
    (tail : list event) :
  submitted2 (EvGetAvdFacts all_hostvars
              :: (ev_submit1 avd_facts <$> all_hostvars)
              ++ (ev_result1 <$> retrieved)
              ++ (ev_submit2 <$> submitted) ++ tail)
  = submitted ++ submitted2 tail.
Proof.
  unfold submitted2. rewrite omap_trace.
  rewrite (omap_fmap_some _ ev_submit2 id) by (by intros []).
  rewrite !omap_fmap_none by done. by rewrite list_fmap_id.
Qed.

Lemma results2_trace (all_hostvars : dict HostVars) (avd_facts : Facts)
    (retrieved submitted : list (string * StructuredConfig))
    (tail : list event) :
  results2 (EvGetAvdFacts all_hostvars
            :: (ev_submit1 avd_facts <$> all_hostvars)
            ++ (ev_result1 <$> retrieved)
            ++ (ev_submit2 <$> submitted) ++ tail)
  = results2 tail.
Proof. unfold results2. rewrite omap_trace. by rewrite !omap_fmap_none by done. Qed.

(** After the Stage 2 submissions come only results and writes. *)
Lemma tail_no_stage1 (intended_configs_path : path) (fs0 : filesystem)
    (tail : list event) :
  (intended_configs_path ∈ dirs fs0
   ∧ (∃ done2 : list (string * string),
        tail = done2
               ≫= λ y, [ev_result2 y; ev_write intended_configs_path y])
   ∨ (intended_configs_path ∉ dirs fs0)
     ∧ ∃ done2 : list (string * string), tail = ev_result2 <$> done2) →
  submitted1 tail = [] ∧ results1 tail = [] ∧ submitted2 tail = [].
Proof.
  intros [(_ & done2 & ->)|(_ & done2 & ->)].
  - split_and!; apply omap_none; intros ev Hev;
      apply list_elem_of_bind in Hev as (y & Hev & _);
      (apply elem_of_cons in Hev as [->|Hev]; [done|]);
      by apply list_elem_of_singleton in Hev as ->.
  - split_and!; by apply omap_fmap_none.
Qed.

(** *** The hosts and the Stage 1 tasks *)

(** X1. The hosts of an inventory are all different; [all_hostvars] then
    holds the hosts other than [cvp] in the order of the inventory, each
    with the variables that the variable manager gives for it. *)
Theorem hostvars_in_inventory_order (inventory_path : path) :
  NoDup (inventory_hosts inventory_path) →
  collect_hostvars inventory_path
  = (λ h, (h, get_vars inventory_path h))
    <$> filter (λ h, h ≠ "cvp") (inventory_hosts inventory_path).
Proof.
  intros Hnd.
  apply (dict_set_fold_distinct (get_vars inventory_path)
           (inventory_hosts inventory_path) []).
  exact Hnd.
Qed.




(** *** The validation gates *)

(** X5. Whatever a run does, [get_device_structured_config] is only ever
    called for a host that is built, on that host's own variables, after
    they passed input validation, and with the shared facts; and
    [get_device_config] is only ever called on a structured config that
    passed validation and that Stage 1 produced for a host with valid
    inputs. *)
Theorem validation_gates_generation (sched : scheduler)
    (inventory_path intended_configs_path : path) (max_workers : option Z)
    (fs0 : filesystem) (ev : event) :
  let all_hostvars := collect_hostvars inventory_path in
  let avd_facts := get_avd_facts all_hostvars in
  let out :=
    build sched inventory_path intended_configs_path max_workers
      (World [] fs0) in
  ev ∈ trace out.2 →
  (∀ h v f, CallGetDeviceStructuredConfig h v f ∈ worker_effects ev →
     (h, v) ∈ all_hostvars ∧ failed (validate_inputs v) = false
     ∧ f = avd_facts)
  ∧ (∀ sc, CallGetDeviceConfig sc ∈ worker_effects ev →
       failed (validate_structured_config sc) = false
       ∧ ∃ h v, (h, v) ∈ all_hostvars
                ∧ failed (validate_inputs v) = false
                ∧ sc = get_device_structured_config h v avd_facts).
Proof.
  simpl.
  destruct (build_trace_exact sched inventory_path intended_configs_path
              max_workers fs0)
    as (retrieved & submitted & tail & Htrace & Hret & Hstage1 & Htail).
  simpl in Htrace, Hret, Hstage1. rewrite Htrace. clear Htrace.
  set (hv := collect_hostvars inventory_path) in Hret, Hstage1 |- *.
  set (facts := get_avd_facts hv) in Hret |- *.
  rewrite elem_of_cons, !elem_of_app, !list_elem_of_fmap.
  intros [->|[([h0 v0] & -> & Hx)|[(x & -> & _)|[(y & -> & Hy)|Hev]]]].
  - split; [intros h v f Hc|intros sc Hc]; by apply elem_of_nil in Hc.
  - simpl. unfold run_task. rewrite build_structured_config_run.
    destruct (failed (validate_inputs v0)) eqn:Hfail; simpl; split.
    + intros h v f. rewrite elem_of_cons, list_elem_of_fmap.
      by intros [?|(? & ? & _)].
    + intros sc. rewrite elem_of_cons, list_elem_of_fmap.
      by intros [?|(? & ? & _)].
    + intros h v f. rewrite !elem_of_cons, elem_of_nil.
      intros [?|[Heq|[]]]; [done|]. by injection Heq as -> -> ->.
    + intros sc. rewrite !elem_of_cons, elem_of_nil. by intros [?|[?|[]]].
  - split; [intros h v f Hc|intros sc Hc]; by apply elem_of_nil in Hc.
  - destruct Hstage1 as [(-> & Hok & _)|(-> & _)];
      [|by apply elem_of_nil in Hy].
    destruct (Hret y Hy) as ([h0 v0] & Hx & ->).
    split; [intros h v f Hc; by apply worker_facts_submit2 in Hc|].
    intros sc. simpl. unfold run_task. rewrite build_designed_config_run.
    simpl.
    destruct (failed (validate_structured_config
                        (get_device_structured_config h0 v0 facts)))
      eqn:Hfail; simpl.
    + rewrite elem_of_cons, list_elem_of_fmap. by intros [?|(? & ? & _)].
    + rewrite !elem_of_cons, elem_of_nil. intros [?|[Heq|[]]]; [done|].
      injection Heq as ->. split; [done|]. exists h0, v0. split_and!; [done| |done].
      specialize (Hok _ Hx). unfold inputs_ok in Hok. simpl in Hok.
      by apply negb_true_iff in Hok.
  - assert (Hnone : worker_effects ev = []).
    { destruct Htail as [(_ & done2 & ->)|(_ & done2 & ->)].
      - apply list_elem_of_bind in Hev as (y & Hev & _).
        apply elem_of_cons in Hev as [->|Hev]; [done|].
        by apply list_elem_of_singleton in Hev as ->.
      - by apply list_elem_of_fmap in Hev as (y & -> & _). }
    rewrite Hnone.
    split; [intros h v f Hc|intros sc Hc]; by apply elem_of_nil in Hc.
Qed.

(** *** The writer *)

(** X6. Every write comes right after the retrieval of a Stage 2 result: it
    writes the designed config just retrieved, to the file named after the
    host that the result names. *)
Theorem write_follows_result (sched : scheduler)
    (inventory_path intended_configs_path : path) (max_workers : option Z)
    (fs0 : filesystem) (pre post : list event) (p : path) (c : string) :
  trace (build sched inventory_path intended_configs_path max_workers
           (World [] fs0)).2
  = pre ++ EvWrite p c :: post →
  ∃ pre' h, pre = pre' ++ [EvResult2 h c]
            ∧ p = intended_configs_path ++ [h +:+ ".cfg"].
Proof.
  intros Htr.
  destruct (build_trace_exact sched inventory_path intended_configs_path
              max_workers fs0)
    as (retrieved & submitted & tail & Htrace & _ & _ & Htail).
  simpl in Htrace. rewrite Htr in Htrace. clear Htr.
  set (hv := collect_hostvars inventory_path) in Htrace.
  set (facts := get_avd_facts hv) in Htrace.
  assert (Hassoc :
            EvGetAvdFacts hv :: (ev_submit1 facts <$> hv)
            ++ (ev_result1 <$> retrieved) ++ (ev_submit2 <$> submitted) ++ tail
            = (EvGetAvdFacts hv :: (ev_submit1 facts <$> hv)
               ++ (ev_result1 <$> retrieved) ++ (ev_submit2 <$> submitted))
              ++ tail).
  { simpl. by rewrite <- !app_assoc. }
  rewrite Hassoc in Htrace. clear Hassoc.
  apply split_after_prefix in Htrace as (m & -> & Hrest).
  2:{ rewrite elem_of_cons, !elem_of_app, !list_elem_of_fmap.
      intros [?|[(? & ? & _)|[(? & ? & _)|(? & ? & _)]]]; done. }
  destruct Htail as [(_ & done2 & ->)|(_ & done2 & ->)].
  - apply pairs_split in Hrest as (m' & [h c'] & -> & Heq & _); [|done].
    injection Heq as -> ->. eexists (_ ++ m'), h.
    split; [by rewrite <- app_assoc|done].
  - assert (Hin : EvWrite p c
                  ∈ ev_result2 (collaborators := collaborators) <$> done2).
    { rewrite Hrest. apply elem_of_app. right. by left. }
    by apply list_elem_of_fmap in Hin as (? & ? & _).
Qed.



(** *** How a run ends *)




(** *** The command line *)

Lemma take_options_last (ns : Namespace) (argv : list cli_option)
    (o : cli_option) :
  take_options ns (argv ++ [o])
  = match take_options ns argv with
    | inl e => inl e
    | inr ns' => take_option ns' o
    end.
Proof.
  revert ns. induction argv as [|o' argv IH]; intros ns; simpl.
  - by destruct (take_option ns o).
  - destruct (take_option ns o'); [done|]. apply IH.
Qed.

Lemma take_options_values (ns ns' : Namespace) (argv : list cli_option)
    (v : string) :
  take_options ns argv = inr ns' → OptMaxWorkers (Some v) ∈ argv →
  is_Some (int_of_string v).
Proof.
  revert ns. induction argv as [|o argv IH]; intros ns Hns Hin; simpl in Hns.
  - by apply elem_of_nil in Hin.
  - destruct (take_option ns o) as [e|ns1] eqn:Ho; [done|].
    apply elem_of_cons in Hin as [<-|Hin]; [|by eapply IH].
    simpl in Ho. by destruct (int_of_string v).
Qed.

(** X12. When the command line parses, every value given to [-m] is an
    integer literal, also one that a later [-m] overrides; and the last
    occurrence of an option decides: a final [-m] with no value passes [None]
    as the worker count, not the default 10, a final [-m] with a value passes
    that integer, and a final [-o] or [-i] passes its path. *)
Theorem last_option_occurrence_decides (argv : list cli_option)
    (inventory_path intended_configs_path : path) (max_workers : option Z) :
  parse_args argv = inr (inventory_path, intended_configs_path, max_workers) →
  (∀ v, OptMaxWorkers (Some v) ∈ argv → is_Some (int_of_string v))
  ∧ (∀ argv', argv = argv' ++ [OptMaxWorkers None] → max_workers = None)
  ∧ (∀ argv' v, argv = argv' ++ [OptMaxWorkers (Some v)] →
       max_workers = int_of_string v)
  ∧ (∀ argv' v, argv = argv' ++ [OptIntendedConfigsPath v] →
       intended_configs_path = Path_of_string v)
  ∧ (∀ argv' v, argv = argv' ++ [OptInventoryPath v] →
       inventory_path = Path_of_string v).
Proof.
  unfold parse_args. intros Hparse.
  destruct (take_options namespace_defaults argv) as [e|ns] eqn:Hns; [done|].
  destruct (ns_inventory_path ns) as [ip|] eqn:Hip; [|done].
  injection Hparse as -> <- <-. split_and!.
  - intros v Hv. by eapply take_options_values.
  - intros argv' ->. rewrite take_options_last in Hns.
    destruct (take_options namespace_defaults argv'); [done|].
    simpl in Hns. by injection Hns as <-.
  - intros argv' v ->. rewrite take_options_last in Hns.
    destruct (take_options namespace_defaults argv'); [done|].
    simpl in Hns. destruct (int_of_string v); [|done]. by injection Hns as <-.
  - intros argv' v ->. rewrite take_options_last in Hns.
    destruct (take_options namespace_defaults argv'); [done|].
    simpl in Hns. by injection Hns as <-.
  - intros argv' v ->. rewrite take_options_last in Hns.
    destruct (take_options namespace_defaults argv'); [done|].
    simpl in Hns. injection Hns as <-. simpl in Hip. by injection Hip.
Qed.

(** *** Stage 2 failures *)



End FurtherProperties.

(** ** The pipeline on the small fabric *)


(** C3 at work: in the healthy fabric the first Stage 2 submission comes
    after both Stage 1 results. *)
Lemma stage2_submitted_after_stage1_barrier_witness :
  let t :=
    trace (build (collaborators := Fabric.collaborators) Fabric.second_first
             ["fabric"] ["intended"; "configs"] (Some 10%Z)
             (World [] Fabric.out_present)).2 in
  t = take 5 t ++ EvSubmit2 (collaborators := Fabric.collaborators) "leaf2" "hostname leaf2" :: drop 6 t
  ∧ EvResult1 (collaborators := Fabric.collaborators) "leaf1" "hostname leaf1" ∈ take 5 t
  ∧ EvResult1 (collaborators := Fabric.collaborators) "leaf2" "hostname leaf2" ∈ take 5 t.
Proof.
  assert (Ht : trace (build (collaborators := Fabric.collaborators)
                        Fabric.second_first ["fabric"] ["intended"; "configs"]
                        (Some 10%Z) (World [] Fabric.out_present)).2
               = take 5 (trace (build (collaborators := Fabric.collaborators)
                                  Fabric.second_first ["fabric"]
                                  ["intended"; "configs"] (Some 10%Z)
                                  (World [] Fabric.out_present)).2)
                 ++ EvSubmit2 (collaborators := Fabric.collaborators) "leaf2" "hostname leaf2"
                 :: drop 6 (trace (build (collaborators := Fabric.collaborators)
                                     Fabric.second_first ["fabric"]
                                     ["intended"; "configs"] (Some 10%Z)
                                     (World [] Fabric.out_present)).2)).
  { vm_compute. reflexivity. }
  destruct (stage2_submitted_after_stage1_barrier
              (collaborators := Fabric.collaborators) Fabric.second_first
              ["fabric"] ["intended"; "configs"] (Some 10%Z)
              Fabric.out_present _ _ "leaf2" "hostname leaf2" Ht)
    as (Hall & _ & _).
  split; [exact Ht|]. split.
  - apply (Hall "leaf1" "type of leaf1").
    by_evaluation.
  - apply (Hall "leaf2" "type of leaf2").
    by_evaluation.
Defined.








(** ** Further properties on the small fabric *)

(** X1 at work: the healthy fabric lists [leaf1], the controller, [leaf2]. *)
Lemma hostvars_in_inventory_order_witness :
  NoDup (Fabric.inventory_hosts ["fabric"])
  ∧ collect_hostvars (collaborators := Fabric.collaborators) ["fabric"]
    = [("leaf1", "type of leaf1"); ("leaf2", "type of leaf2")].
Proof.
  assert (Hnd : NoDup (Fabric.inventory_hosts ["fabric"])) by by_evaluation.
  split; [exact Hnd|].
  rewrite (hostvars_in_inventory_order
             (collaborators := Fabric.collaborators) ["fabric"] Hnd).
  vm_compute. reflexivity.
Defined.



(** X5 at work: the Stage 2 task of [leaf1] calls the renderer, on a
    structured config that passed validation. *)
Lemma validation_gates_generation_witness :
  let ev :=
    EvSubmit2 (collaborators := Fabric.collaborators)
      "leaf1" "hostname leaf1" in
  ev ∈ trace (build (collaborators := Fabric.collaborators) Fabric.in_order
                ["fabric"] ["intended"; "configs"] (Some 10%Z)
                (World [] Fabric.out_present)).2
  ∧ CallGetDeviceConfig (collaborators := Fabric.collaborators)
      "hostname leaf1" ∈ worker_effects ev
  ∧ failed (Fabric.validate_structured_config "hostname leaf1") = false.
Proof.
  simpl.
  assert (Hev : EvSubmit2 (collaborators := Fabric.collaborators)
                  "leaf1" "hostname leaf1"
                ∈ trace (build (collaborators := Fabric.collaborators)
                           Fabric.in_order ["fabric"] ["intended"; "configs"]
                           (Some 10%Z) (World [] Fabric.out_present)).2).
  { apply list_elem_of_In. vm_compute. auto 10. }
  assert (Hcall : CallGetDeviceConfig (collaborators := Fabric.collaborators)
                    "hostname leaf1"
                  ∈ worker_effects
                      (EvSubmit2 (collaborators := Fabric.collaborators)
                         "leaf1" "hostname leaf1")).
  { apply list_elem_of_In. vm_compute. auto. }
  destruct (validation_gates_generation
              (collaborators := Fabric.collaborators) Fabric.in_order
              ["fabric"] ["intended"; "configs"] (Some 10%Z)
              Fabric.out_present _ Hev) as [_ Hrender].
  destruct (Hrender _ Hcall) as [Hok _].
  split; [exact Hev|]. split; [exact Hcall|exact Hok].
Defined.

(** X6 at work: the first write of the healthy fabric is the ninth event. *)
Lemma write_follows_result_witness :
  let t :=
    trace (build (collaborators := Fabric.collaborators) Fabric.in_order
             ["fabric"] ["intended"; "configs"] (Some 10%Z)
             (World [] Fabric.out_present)).2 in
  t = take 8 t
      ++ EvWrite (collaborators := Fabric.collaborators)
           ["intended"; "configs"; "leaf1.cfg"] "hostname leaf1 [rendered]"
      :: drop 9 t
  ∧ ∃ pre' h,
      take 8 t
      = pre' ++ [EvResult2 (collaborators := Fabric.collaborators)
                   h "hostname leaf1 [rendered]"]
      ∧ ["intended"; "configs"; "leaf1.cfg"]
        = ["intended"; "configs"] ++ [h +:+ ".cfg"].
Proof.
  assert (Ht : trace (build (collaborators := Fabric.collaborators)
                        Fabric.in_order ["fabric"] ["intended"; "configs"]
                        (Some 10%Z) (World [] Fabric.out_present)).2
               = take 8 (trace (build (collaborators := Fabric.collaborators)
                                  Fabric.in_order ["fabric"]
                                  ["intended"; "configs"] (Some 10%Z)
                                  (World [] Fabric.out_present)).2)
                 ++ EvWrite (collaborators := Fabric.collaborators)
                      ["intended"; "configs"; "leaf1.cfg"]
                      "hostname leaf1 [rendered]"
                 :: drop 9 (trace (build (collaborators := Fabric.collaborators)
                                     Fabric.in_order ["fabric"]
                                     ["intended"; "configs"] (Some 10%Z)
                                     (World [] Fabric.out_present)).2)).
  { vm_compute. reflexivity. }
  split; [exact Ht|].
  exact (write_follows_result (collaborators := Fabric.collaborators)
           Fabric.in_order ["fabric"] ["intended"; "configs"] (Some 10%Z)
           Fabric.out_present _ _ _ _ Ht).
Defined.




(** X12 at work: [-i inv -m 4 -m]. *)
Lemma last_option_occurrence_decides_witness :
  let argv :=
    [OptInventoryPath "inv"; OptMaxWorkers (Some "4"); OptMaxWorkers None] in
  parse_args (collaborators := Fabric.collaborators) argv
  = inr (["inv"], ["intended"; "configs"], None)
  ∧ ∀ v, OptMaxWorkers (Some v) ∈ argv → is_Some (Fabric.int_of_string v).
Proof.
  simpl.
  assert (Hparse : parse_args (collaborators := Fabric.collaborators)
                     [OptInventoryPath "inv"; OptMaxWorkers (Some "4");
                      OptMaxWorkers None]
                   = inr (["inv"], ["intended"; "configs"], None)).
  { vm_compute. reflexivity. }
  split; [exact Hparse|].
  exact (proj1 (last_option_occurrence_decides
                  (collaborators := Fabric.collaborators) _ _ _ _ Hparse)).
Defined.


